(** * MangaRecap: panel detection, narration script and video timeline

    A shallow embedding of the Python pipeline that the web page ships as
    code listings ([panelDetectCode], [ttsCode] and [videoGenCode] in
    [src/app/layout.tsx]), and the properties of it that the design
    specification states.

    Conventions of the embedding:
    - Python [int] is [Z]; [//] by a positive constant is [Z.div] (both
      round towards minus infinity).
    - Python [float] seconds and zoom factors are exact rationals [Q];
      [int(x)] is truncation towards zero.  Every concrete evaluation below
      is at values where the double-precision result is the exact one.
    - The frame function [zoom_and_pan] is also given as the interpreter
      runs it, in binary64 ([PyFloat], [Renderer]); the two readings are
      compared at the values evaluated below ([window_binary64_agrees]).
    - Python [dict]s with string keys are [gmap string _]; [d.get(k, v)] is
      [default v (d !! k)], [d[k]] fails on a missing key.
    - A raised exception is [None]. *)

From Stdlib Require Import ZArith QArith Qabs Qround Lia Lqa Sorted Permutation.
From Stdlib Require Import Floats.SpecFloat.
From stdpp Require Import base option list strings gmap.
From Stdlib Require DecimalString DecimalNat.

Local Open Scope Z_scope.

(** ** Python and NumPy primitives *)

Module Py.

(** [int(x)] on a number: truncation towards zero. *)
Definition int (q : Q) : Z := Z.quot (Qnum q) (Zpos (Qden q)).

Definition Qltb (a b : Q) : bool := negb (Qle_bool b a).

(** One bound of a slice [l[start:stop]] on a sequence of length [n]:
    a negative bound counts from the end, and both are clamped. *)
Definition slice_bound (n i : Z) : Z :=
  if i <? 0 then Z.max (i + n) 0 else Z.min i n.

Definition slice {A} (l : list A) (start stop : Z) : list A :=
  let n := Z.of_nat (length l) in
  let a := slice_bound n start in
  let b := slice_bound n stop in
  take (Z.to_nat (b - a)) (drop (Z.to_nat a) l).

(** [sep.join(parts)] *)
Fixpoint join (sep : string) (parts : list string) : string :=
  match parts with
  | [] => ""
  | [s] => s
  | s :: rest => s +:+ sep +:+ join sep rest
  end.

(** Comparison of the 2-tuples used as sort keys. *)
Definition tuple_lt (k1 k2 : Z * Z) : bool :=
  (k1.1 <? k2.1) || ((k1.1 =? k2.1) && (k1.2 <? k2.2)).

(** [list.sort(key=...)]: a stable sort that only ever asks whether one
  key is smaller than another, here by insertion: [insert_sorted key p l]
  puts [p], which came before every element of [l], in front of the first
  element whose key is not smaller than its own.  ([sort_unique] below:
  every stable sort gives this list.) *)
Section Sort.
Context {A : Type} (key : A -> Z * Z).

Fixpoint insert_sorted (p : A) (l : list A) : list A :=
  match l with
  | [] => [p]
  | q :: l' =>
      if tuple_lt (key q) (key p) then q :: insert_sorted p l'
      else p :: q :: l'
  end.

Definition sort (l : list A) : list A := foldr insert_sorted [] l.

(** The key of [a] is not larger than the key of [b]. *)
Definition key_le (a b : A) : Prop := tuple_lt (key b) (key a) = false.
End Sort.

End Py.

(** ** Python floats

    A Python [float] is an IEEE 754 binary64 number; the arithmetic is that
    of [SpecFloat] at 53 bits of precision, rounding to nearest, ties to
    even. *)

Module PyFloat.

Definition float : Type := spec_float.
Definition prec : Z := 53.
Definition emax : Z := 1024.

Definition add : float -> float -> float := SFadd prec emax.
Definition sub : float -> float -> float := SFsub prec emax.
Definition mul : float -> float -> float := SFmul prec emax.

Definition is_zero (x : float) : bool :=
  match x with S754_zero _ => true | _ => false end.

(** Neither an infinity nor a NaN. *)
Definition is_finite (x : float) : bool :=
  match x with S754_zero _ | S754_finite _ _ _ => true | _ => false end.

(** [a / b]: [ZeroDivisionError] on a zero divisor. *)
Definition div (a b : float) : option float :=
  if is_zero b then None else Some (SFdiv prec emax a b).

(** The conversion that a mixed operation applies to its [int] operand: the
    nearest float, and [OverflowError] when the int is too large. *)
Definition of_int (n : Z) : option float :=
  match binary_normalize prec emax n 0 false with
  | S754_infinity _ => None
  | x => Some x
  end.

(** [int(x)]: truncation towards zero; it raises on an infinity and on a
    NaN. *)
Definition to_int (x : float) : option Z :=
  match x with
  | S754_zero _ => Some 0
  | S754_finite s m e =>
      let a := Z.shiftl (Zpos m) e in
      Some (if s then - a else a)
  | S754_infinity _ | S754_nan => None
  end.

(** The float nearest to the fraction [n / d] of two ints that convert
    exactly: what a decimal literal such as [1.2], which is [12 / 10],
    denotes. *)
Definition ratio (n d : Z) : float :=
  default S754_nan (a ← of_int n; b ← of_int d; div a b).

Definition zero : float := S754_zero false.
(** [1.0], which is also what the int [1] converts to. *)
Definition one : float := S754_finite false 4503599627370496 (-52).

End PyFloat.

(** ** Images and the OpenCV calls of the pipeline *)

Definition Pixel : Type := Z * Z * Z.
(** An image is its rows, top first; [img.shape[:2]] is [(height, width)]. *)
Definition Image : Type := list (list Pixel).

Definition img_height (img : Image) : Z := Z.of_nat (length img).
Definition img_width (img : Image) : Z :=
  match img with [] => 0 | row :: _ => Z.of_nat (length row) end.

(** [img[y0:y1, x0:x1]] *)
Definition crop (img : Image) (y0 y1 x0 x1 : Z) : Image :=
  (fun row => Py.slice row x0 x1) <$> Py.slice img y0 y1.

Module Cv2.

(** A contour as [cv2.findContours] returns it: its vertices. *)
Definition Contour : Type := list (Z * Z).

(** [cv2.contourArea]: Green's formula over the closed polygon, starting
    from the last vertex, halved, in absolute value. *)
Fixpoint green (prev : Z * Z) (pts : list (Z * Z)) : Z :=
  match pts with
  | [] => 0
  | p :: rest => (prev.1 * p.2 - prev.2 * p.1) + green p rest
  end.

Definition contourArea (c : Contour) : Q :=
  match last c with
  | None => 0%Q
  | Some l => (Z.abs (green l c) # 2)%Q
  end.

Definition minimum (d : Z) (l : list Z) : Z := foldr Z.min d l.
Definition maximum (d : Z) (l : list Z) : Z := foldr Z.max d l.

(** [cv2.boundingRect] of integer points: [(x, y, w, h)] with both
    extreme columns and rows included. *)
Definition boundingRect (c : Contour) : Z * Z * Z * Z :=
  match c with
  | [] => (0, 0, 0, 0)
  | p :: _ =>
      let xs := fst <$> c in
      let ys := snd <$> c in
      let x0 := minimum p.1 xs in
      let y0 := minimum p.2 ys in
      (x0, y0, maximum p.1 xs - x0 + 1, maximum p.2 ys - y0 + 1)
  end.

Inductive Interpolation := INTER_LINEAR | INTER_AREA.

End Cv2.

(** ** panel_detector *)

Module PanelDetector.

Record Panel := mkPanel {
  x : Z;
  y : Z;
  width : Z;
  height : Z;
  image : Image
  }.

Definition bbox (p : Panel) : Z * Z * Z * Z := (x p, y p, width p, height p).

(** One turn of the loop over the contours: [panels] is the list built
    so far. *)
Definition detect_step (img : Image) (min_area : Z)
    (panels : list Panel) (contour : Cv2.Contour) : list Panel :=
  let area := Cv2.contourArea contour in
  if Py.Qltb area (inject_Z min_area) then panels
  else
    let '(x, y, w, h) := Cv2.boundingRect contour in
    let panel_img := crop img y (y + h) x (x + w) in
    panels ++ [mkPanel x y w h panel_img].

(** The panels in detection order, before the sort. *)
Definition detected (img : Image) (contours : list Cv2.Contour)
    (min_area : Z) : list Panel :=
  foldl (detect_step img min_area) [] contours.

(** [lambda p: (p.y // 100, -p.x)] *)
Definition sort_key (p : Panel) : Z * Z := (y p / 100, - x p).

(** [detect_panels], from the page image and the contours that
    [cv2.findContours] found on its thresholded version. *)
Definition detect_panels (img : Image) (contours : list Cv2.Contour)
    (min_area : Z) : list Panel :=
  Py.sort sort_key (detected img contours min_area).

Definition default_min_area : Z := 10000.

(** A contour that the area test lets through. *)
Definition survives (min_area : Z) (contour : Cv2.Contour) : bool :=
  negb (Py.Qltb (Cv2.contourArea contour) (inject_Z min_area)).

(** The panel cut out for one contour. *)
Definition panel_of (img : Image) (contour : Cv2.Contour) : Panel :=
  let '(x, y, w, h) := Cv2.boundingRect contour in
  mkPanel x y w h (crop img y (y + h) x (x + w)).

(** The band of a panel: its row of 100 pixels. *)
Definition band (p : Panel) : Z := y p / 100.

(** Box [a] lies inside box [b]. *)
Definition box_inside (a b : Z * Z * Z * Z) : bool :=
  let '(ax, ay, aw, ah) := a in
  let '(bx, by_, bw, bh) := b in
  (bx <=? ax) && (by_ <=? ay) && (ax + aw <=? bx + bw) && (ay + ah <=? by_ + bh).

End PanelDetector.


(** ** tts_generator: the narration script *)

Module Narrator.

(** [if s:] on a string. *)
Definition truthy (s : string) : bool := negb (String.eqb s "").

(** One turn of the loop of [create_recap_script] over [panels_data]. *)
Definition script_step (script_parts : list string)
    (panel : gmap string string) : list string :=
  let text := default "" (panel !! "text") in
  let desc := default "" (panel !! "description") in
  if truthy text then script_parts ++ [text]
  else if truthy desc then script_parts ++ ["[Scene: " +:+ desc +:+ "]"]
  else script_parts.

Definition script_parts (panels_data : list (gmap string string)) : list string :=
  foldl script_step [] panels_data.

Definition create_recap_script (panels_data : list (gmap string string)) : string :=
  Py.join " ... " (script_parts panels_data).

Definition panel_text (panel : gmap string string) : string :=
  default "" (panel !! "text").
Definition panel_description (panel : gmap string string) : string :=
  default "" (panel !! "description").

(** The panel has something to say: text, or failing that a description. *)
Definition has_content (panel : gmap string string) : Prop :=
  panel_text panel <> "" \/ panel_description panel <> "".

(** [unit] is the script part that stands for [panel]. *)
Definition unit_of (panel : gmap string string) (unit : string) : Prop :=
  (panel_text panel <> "" /\ unit = panel_text panel)
  \/ (panel_text panel = "" /\ panel_description panel <> ""
      /\ unit = "[Scene: " +:+ panel_description panel +:+ "]").

(** Step 2 of [create_manga_recap_video]: the OCR text of every panel of
    every page, empty results left out.  [ocr] is
    [extract_text_from_panel]. *)
Definition collect_text (ocr : PanelDetector.Panel -> string)
    (pages : list (list PanelDetector.Panel)) : list string :=
  foldl (fun all_text panels =>
           foldl (fun all_text panel =>
                    let text := ocr panel in
                    if truthy text then all_text ++ [text] else all_text)
                 all_text panels)
        [] pages.

Definition pipeline_script (ocr : PanelDetector.Panel -> string)
    (pages : list (list PanelDetector.Panel)) : string :=
  Py.join " ... " (collect_text ocr pages).

End Narrator.

(** ** video_generator *)

Module VideoGenerator.

(** The image library behind MoviePy and the renderer: reading a file
    ([ImageClip(path)]) and [cv2.resize(pic, (width, height), interpolation)].
    Either may raise. *)
Class ImageLib := {
  imread : string -> option Image;
  cv2_resize : Cv2.Interpolation -> Image -> Z * Z -> option Image
}.

(** The fields of a [MangaVideoGenerator]; [resolution] is (width, height). *)
Record Generator := mkGenerator {
  resolution : Z * Z;
  fps : Z
}.

Definition default_generator : Generator := mkGenerator (1920, 1080) 30.

(** MoviePy's [clip.resize(height=...)]: the new size
    [[w * height / h, height]], each entry truncated by the resizer. *)
Definition resized_size (size : Z * Z) (height : Z) : option (Z * Z) :=
  let '(w, h) := size in
  if h =? 0 then None
  else Some (Py.int (inject_Z (w * height) / inject_Z h), height).

(** MoviePy's resizer: linear interpolation when a side grows, area
    interpolation otherwise. *)
Definition moviepy_resize `{ImageLib} (pic : Image) (height : Z) : option Image :=
  '(lx, ly) ← resized_size (img_width pic, img_height pic) height;
  let interpolation :=
    if (img_width pic <? lx) || (img_height pic <? ly)
    then Cv2.INTER_LINEAR else Cv2.INTER_AREA in
  cv2_resize interpolation pic (lx, ly).

(** What the closure [zoom_and_pan] captures from [create_ken_burns_clip]. *)
Record KenBurns := mkKenBurns {
  duration : Q;
  zoom_start : Q;
  zoom_end : Q;
  pan_direction : string
}.

(** The crop window [(x_offset, y_offset, crop_w, crop_h)] that
    [zoom_and_pan] computes at time [t] on a frame of [h] rows and [w]
    columns. *)
Definition crop_window (resolution : Z * Z) (k : KenBurns) (h w : Z) (t : Q)
    : option (Z * Z * Z * Z) :=
  if Qeq_bool (duration k) 0 then None else
  let progress := (t / duration k)%Q in
  let current_zoom := (zoom_start k + (zoom_end k - zoom_start k) * progress)%Q in
  if Qeq_bool current_zoom 0 then None else
  let crop_h := Py.int (inject_Z resolution.2 / current_zoom) in
  let crop_w := Py.int (inject_Z resolution.1 / current_zoom) in
  let '(x_offset, y_offset) :=
    if String.eqb (pan_direction k) "right" then
      (Py.int (inject_Z (w - crop_w) * progress), (h - crop_h) / 2)
    else if String.eqb (pan_direction k) "left" then
      (Py.int (inject_Z (w - crop_w) * (1 - progress)), (h - crop_h) / 2)
    else
      ((w - crop_w) / 2, (h - crop_h) / 2) in
  Some (x_offset, y_offset, crop_w, crop_h).

(** The window lies within a frame of [h] rows and [w] columns. *)
Definition window_in_bounds (h w : Z) (win : Z * Z * Z * Z) : bool :=
  let '(x_offset, y_offset, crop_w, crop_h) := win in
  (0 <=? x_offset) && (x_offset + crop_w <=? w) &&
  (0 <=? y_offset) && (y_offset + crop_h <=? h).

(** *** Clips and the assembled video *)

Inductive ClipSource :=
| TitleCard (title : string) (size : Z * Z)
| KenBurnsClip (frame : Image) (k : KenBurns).

(** A clip before it is placed: what plays, and for how long. *)
Definition Take : Type := ClipSource * Q.

Record Clip := mkClip {
  source : ClipSource;
  start : Q;
  clip_duration : Q
}.

Record Video := mkVideo {
  clips : list Clip;
  video_duration : Q;
  audio : option Q
}.

(** [create_ken_burns_clip]: the still image read and resized to the
    height [int(self.resolution[1] * zoom_end)], with the closure over it. *)
Definition create_ken_burns_clip `{ImageLib} (g : Generator)
    (image_path : string) (duration zoom_start zoom_end : Q)
    (pan_direction : string) : option Take :=
  pic ← imread image_path;
  frame ← moviepy_resize pic (Py.int (inject_Z (resolution g).2 * zoom_end));
  Some (KenBurnsClip frame (mkKenBurns duration zoom_start zoom_end pan_direction),
        duration).

(** Values of a scene [dict]. *)
Inductive PyVal :=
| PyStr (s : string)
| PyNum (q : Q).

(** [scene['image']] *)
Definition scene_image (scene : gmap string PyVal) : option string :=
  match scene !! "image" with
  | Some (PyStr s) => Some s
  | _ => None
  end.

(** [scene.get('duration', 5)] *)
Definition scene_duration (scene : gmap string PyVal) : option Q :=
  match scene !! "duration" with
  | None => Some 5%Q
  | Some (PyNum q) => Some q
  | Some (PyStr _) => None
  end.

Definition pan_directions : list string := ["right"; "left"; "up"; "down"].

(** The duration of every scene, in order. *)
Definition scene_durations (scenes : list (gmap string PyVal)) : option (list Q) :=
  mapM scene_duration scenes.

(** The sum of a list of durations. *)
Definition total (ds : list Q) : Q := foldr Qplus 0%Q ds.

(** The loop over [enumerate(scenes)], from index [i] on. *)
Fixpoint scene_clips `{ImageLib} (g : Generator) (i : nat)
    (scenes : list (gmap string PyVal)) : option (list Take) :=
  match scenes with
  | [] => Some []
  | scene :: rest =>
      image ← scene_image scene;
      d ← scene_duration scene;
      pan ← pan_directions !! (i mod length pan_directions)%nat;
      clip ← create_ken_burns_clip g image d 1%Q (12 # 10)%Q pan;
      more ← scene_clips g (S i) rest;
      Some (clip :: more)
  end.

(** [np.cumsum] *)
Fixpoint cumsum_from (acc : Q) (l : list Q) : list Q :=
  match l with
  | [] => []
  | d :: rest => let s := (acc + d)%Q in s :: cumsum_from s rest
  end.

Definition cumsum (l : list Q) : list Q :=
  match l with
  | [] => []
  | a :: rest => a :: cumsum_from a rest
  end.

(** [concatenate_videoclips(clips, method='compose')]: clip [i] starts at
    [tt[i]], the composite lasts [tt[-1]]. *)
Definition concatenate_videoclips (takes : list Take) : Video :=
  let tt := cumsum (0%Q :: (snd <$> takes)) in
  mkVideo (zip_with (fun c t => mkClip c.1 t c.2) takes tt)
          (default 0%Q (last tt))
          None.

Definition set_duration (video : Video) (t : Q) : Video :=
  mkVideo (clips video) t (audio video).

Definition set_audio (video : Video) (a : Q) : Video :=
  mkVideo (clips video) (video_duration video) (Some a).

(** The title card and the scene clips, concatenated. *)
Definition concatenated `{ImageLib} (g : Generator)
    (scenes : list (gmap string PyVal)) (title : string) : option Video :=
  more ← scene_clips g 0 scenes;
  Some (concatenate_videoclips ((TitleCard title (resolution g), 3%Q) :: more)).

(** "Add audio narration": [audio_file] is the duration of the file at
    [audio_path], [None] when there is no such file. *)
Definition add_narration (video : Video) (audio_file : option Q) : Video :=
  match audio_file with
  | None => video
  | Some a =>
      let video :=
        if Py.Qltb (video_duration video) a then set_duration video a
        else video in
      set_audio video a
  end.

(** [create_manga_recap], up to the video handed to [write_videofile]. *)
Definition create_manga_recap `{ImageLib} (g : Generator)
    (scenes : list (gmap string PyVal)) (audio_file : option Q)
    (title : string) : option Video :=
  video ← concatenated g scenes title;
  Some (add_narration video audio_file).

(** Step 4 of [create_manga_recap_video]: one scene of 5 seconds for each
    of the first 20 page images. *)
Definition pipeline_scenes (images : list string) : list (gmap string PyVal) :=
  (fun img => {[ "image" := PyStr img; "duration" := PyNum 5%Q ]}) <$> take 20 images.

End VideoGenerator.

(** ** video_generator: the frame function as it runs *)

Module Renderer.
Import PyFloat.

(** What the closure [zoom_and_pan] captures from [create_ken_burns_clip]:
    the numbers as floats (an int argument enters every operation below
    through its conversion) and the direction.  The time [t] that
    [zoom_and_pan] is called with is a Python float as well. *)
Record Closure := mkClosure {
  duration : float;
  zoom_start : float;
  zoom_end : float;
  pan_direction : string
}.

(** [progress = t / duration] *)
Definition progress_at (c : Closure) (t : float) : option float :=
  div t (duration c).

(** [zoom_start + (zoom_end - zoom_start) * progress] *)
Definition zoom_of (c : Closure) (progress : float) : float :=
  add (zoom_start c) (mul (sub (zoom_end c) (zoom_start c)) progress).

(** [current_zoom] at time [t]. *)
Definition zoom_at (c : Closure) (t : float) : option float :=
  zoom_of c <$> progress_at c t.

(** [int(side / current_zoom)] for an int [side]. *)
Definition crop_side (side : Z) (current_zoom : float) : option Z :=
  side ← of_int side;
  q ← div side current_zoom;
  to_int q.

(** [int(n * factor)] for an int [n]. *)
Definition pan_offset (n : Z) (factor : float) : option Z :=
  n ← of_int n;
  to_int (mul n factor).

(** The crop window [(x_offset, y_offset, crop_w, crop_h)] that
    [zoom_and_pan] computes at time [t] on a frame of [h] rows and [w]
    columns, with [resolution] as [self.resolution] holds it. *)
Definition window (resolution : Z * Z) (c : Closure) (h w : Z) (t : float)
    : option (Z * Z * Z * Z) :=
  progress ← progress_at c t;
  let current_zoom := zoom_of c progress in
  crop_h ← crop_side resolution.2 current_zoom;
  crop_w ← crop_side resolution.1 current_zoom;
  if String.eqb (pan_direction c) "right" then
    x_offset ← pan_offset (w - crop_w) progress;
    Some (x_offset, (h - crop_h) / 2, crop_w, crop_h)
  else if String.eqb (pan_direction c) "left" then
    x_offset ← pan_offset (w - crop_w) (sub one progress);
    Some (x_offset, (h - crop_h) / 2, crop_w, crop_h)
  else
    Some ((w - crop_w) / 2, (h - crop_h) / 2, crop_w, crop_h).

(** *** Frame evaluation over the objects it can reach

    A frame evaluation reaches two mutable objects: the generator [self],
    whose attribute [resolution] it reads at every call, and the array of
    the still image, which [get_frame] hands out by reference at every
    call.  Both are shared: the generator by all the clips it has made and
    by whoever made it, the array by every evaluation. *)
Record Store := mkStore {
  self : VideoGenerator.Generator;
  still : Image
}.

Definition M (A : Type) : Type := Store -> A * Store.
Definition ret {A} (a : A) : M A := fun s => (a, s).
Definition bind {A B} (m : M A) (f : A -> M B) : M B :=
  fun s => let '(a, s') := m s in f a s'.
Definition read {A} (f : Store -> A) : M A := fun s => (f s, s).
Definition write (f : Store -> Store) : M unit := fun s => (tt, f s).

Declare Scope store_scope.
Delimit Scope store_scope with store.
Notation "'let*' x := m 'in' k" := (bind m (fun x => k))
  (at level 10, x name, m at level 100, k at level 200, only parsing) : store_scope.

(** [self.resolution = resolution] and [self.fps = fps]: the assignments
    that [__init__] makes, and that stay open to any holder of the
    generator. *)
Definition set_resolution (resolution : Z * Z) : M unit :=
  write (fun s =>
    mkStore (VideoGenerator.mkGenerator resolution (VideoGenerator.fps (self s)))
            (still s)).

Definition set_fps (fps : Z) : M unit :=
  write (fun s =>
    mkStore (VideoGenerator.mkGenerator (VideoGenerator.resolution (self s)) fps)
            (still s)).

(** [zoom_and_pan(get_frame, t)]; the three reads of [self.resolution] see
    one value, nothing else runs between them. *)
Definition zoom_and_pan `{VideoGenerator.ImageLib} (c : Closure) (t : float)
    : M (option Image) :=
  (let* frame := read still in
   let* res := read (fun s => VideoGenerator.resolution (self s)) in
   ret (win ← window res c (img_height frame) (img_width frame) t;
        let '(x_offset, y_offset, crop_w, crop_h) := win in
        let cropped :=
          crop frame y_offset (y_offset + crop_h) x_offset (x_offset + crop_w) in
        VideoGenerator.cv2_resize Cv2.INTER_LINEAR cropped res))%store.

(** The frames at the times [ts], evaluated one after the other. *)
Fixpoint frames_at `{VideoGenerator.ImageLib} (c : Closure) (ts : list float)
    : M (list (option Image)) :=
  match ts with
  | [] => ret []
  | t :: rest =>
      (let* f := zoom_and_pan c t in
       let* fs := frames_at c rest in
       ret (f :: fs))%store
  end.

(** Two evaluations of the frame at [t], with [between] run after the
    first: the two frames. *)
Definition evaluated_twice `{VideoGenerator.ImageLib} {A : Type} (c : Closure) (t : float)
    (between : M A) : M (option Image * option Image) :=
  (let* first := zoom_and_pan c t in
   let* _ := between in
   let* again := zoom_and_pan c t in
   ret (first, again))%store.

End Renderer.


(** ** Sample inputs *)

Module Samples.

Definition white : Pixel := (255, 255, 255).
Definition black : Pixel := (0, 0, 0).

(** A page of [w] by [h] pixels, black where [ink x y] holds. *)
Definition raster (w h : Z) (ink : Z -> Z -> bool) : Image :=
  (fun y => (fun x => if ink x y then black else white) <$> seqZ 0 w) <$> seqZ 0 h.

Definition within (lo hi v : Z) : bool := (lo <=? v) && (v <=? hi).

(** An empty page: no contour at all. *)
Definition blank_page : Image := raster 64 64 (fun _ _ => false).

(** A page with one stray mark of 6 by 6 pixels in its corner. *)
Definition speck_page : Image :=
  raster 64 64 (fun x y => within 0 5 x && within 0 5 y).
Definition speck : Cv2.Contour := [(0, 0); (0, 5); (5, 5); (5, 0)].

(** A page with an L-shaped region and, in the corner that the L leaves
    free, a separate square.  Neither region encloses the other, so both
    are outer contours, yet the square's box lies inside the L's box. *)
Definition nested_page : Image :=
  raster 320 320 (fun x y =>
    (within 0 300 x && within 0 100 y) || (within 0 100 x && within 0 300 y)
    || (within 150 280 x && within 150 280 y)).
Definition l_shape : Cv2.Contour :=
  [(0, 0); (0, 300); (100, 300); (100, 100); (300, 100); (300, 0)].
Definition square : Cv2.Contour :=
  [(150, 150); (150, 280); (280, 280); (280, 150)].

(** A stand-in image library: every path holds a grey image of 3 by 2
    pixels, and resizing samples the nearest pixel. *)
Definition grey : Image := [[(90, 90, 90); (120, 120, 120); (150, 150, 150)];
                            [(60, 60, 60); (30, 30, 30); (0, 0, 0)]].

Definition nearest (pic : Image) (size : Z * Z) : option Image :=
  let '(w, h) := size in
  if (w <=? 0) || (h <=? 0) || (img_width pic <=? 0) then None
  else Some ((fun y =>
                (fun x =>
                   default black
                     (row ← pic !! Z.to_nat (y * img_height pic / h);
                      row !! Z.to_nat (x * img_width pic / w)))
                <$> seqZ 0 w)
             <$> seqZ 0 h).

Definition toy_lib : VideoGenerator.ImageLib :=
  {| VideoGenerator.imread := fun _ => Some grey;
     VideoGenerator.cv2_resize := fun _ pic size => nearest pic size |}.

(** A generator for thumbnails of 16 by 9 pixels. *)
Definition thumbnailer : VideoGenerator.Generator :=
  VideoGenerator.mkGenerator (16, 9) 30.

(** Two scenes of 14 seconds each. *)
Definition two_scenes : list (gmap string VideoGenerator.PyVal) :=
  [ {[ "image" := VideoGenerator.PyStr "page_0000.png";
       "duration" := VideoGenerator.PyNum 14%Q ]};
    {[ "image" := VideoGenerator.PyStr "page_0001.png";
       "duration" := VideoGenerator.PyNum 14%Q ]} ].

(** The clip that [create_manga_recap] asks for, as the frame function
    sees it: 5 seconds, zoom from 1.0 to 1.2. *)
Definition default_closure (pan_direction : string) : Renderer.Closure :=
  Renderer.mkClosure (PyFloat.ratio 5 1) PyFloat.one (PyFloat.ratio 12 10)
    pan_direction.

(** The thumbnailer with the still of one of its clips: the grey image at
    [int(9 * 1.2) = 10] rows. *)
Definition thumbnail_still : Image := default [] (nearest grey (15, 10)).
Definition thumbnail_store : Renderer.Store :=
  Renderer.mkStore thumbnailer thumbnail_still.

(** The frames at the end and in the middle of the default clip, then a
    new frame rate for the generator. *)
Definition frames_then_fps : Renderer.M unit :=
  Renderer.bind
    (@Renderer.frames_at toy_lib (default_closure "right")
       [PyFloat.ratio 5 1; PyFloat.ratio 2 1])
    (fun _ => Renderer.set_fps 60).

End Samples.

(** ** More of the code

    The page extractor, the pipeline function that ties the stages
    together, the handlers of the page component, and the notions the
    further properties are stated with. *)

(** An image of [h] rows of [w] pixels each. *)
Definition rectangular (h w : Z) (img : Image) : Prop :=
  Z.of_nat (length img) = h /\ Forall (fun row => Z.of_nat (length row) = w) img.

(** [img[i, j]] for indices that are not negative. *)
Definition pixel (img : Image) (i j : Z) : option Pixel :=
  row ← img !! Z.to_nat i; row !! Z.to_nat j.

(** A contour whose vertices are pixels of a page of [h] rows and [w]
    columns. *)
Definition on_page (h w : Z) (c : Cv2.Contour) : Prop :=
  Forall (fun pt => 0 <= pt.1 < w /\ 0 <= pt.2 < h) c.

(** ** pdf_extractor *)

Module PdfExtractor.
Import Stdlib.Strings.Ascii.

(** [str(n)] for a number of pages: decimal digits, no leading zero. *)
Definition decimal (n : nat) : string := DecimalString.NilEmpty.string_of_uint (Nat.to_uint n).

(** Left padding with zeros to [width] characters. *)
Definition zfill (width : nat) (s : string) : string :=
  Nat.iter (width - String.length s) (String "0"%char) s.

(** [f"{page_num:04d}"] *)
Definition format_04d (page_num : nat) : string := zfill 4 (decimal page_num).

(** [os.path.join(a, b)] on POSIX. *)
Fixpoint ends_with_slash (a : string) : bool :=
  match a with
  | "" => false
  | String c "" => Ascii.eqb c "/"
  | String _ rest => ends_with_slash rest
  end.

Definition path_join (a b : string) : string :=
  match b with
  | String "/"%char _ => b
  | _ => if String.eqb a "" || ends_with_slash a then a +:+ b
         else a +:+ "/" +:+ b
  end.

(** The path of the image of page [page_num]. *)
Definition page_path (output_dir : string) (page_num : nat) : string :=
  path_join output_dir ("page_" +:+ format_04d page_num +:+ ".png").

(** An open document: [len(doc)], and the pixmap that
    [doc.load_page(page_num).get_pixmap(matrix=fitz.Matrix(zoom, zoom))]
    renders when neither call raises. *)
Record Document (Pixmap : Type) := mkDocument {
  page_count : nat;
  get_pixmap : nat -> Q -> option Pixmap
}.
Arguments mkDocument {Pixmap} _ _.
Arguments page_count {Pixmap} _.
Arguments get_pixmap {Pixmap} _ _ _.

(** The calls that reach the disk, over the states [Fs] of the file
    system; each of the first three may raise.
    - [makedirs]: [os.makedirs(path, exist_ok=True)];
    - [fitz_open]: [fitz.open(pdf_path)];
    - [save]: [pix.save(output_path)];
    - [read_file]: the pixmap held by the file at a path, if there is one. *)
Class Disk (Fs Pixmap : Type) := {
  makedirs : string -> Fs -> option Fs;
  fitz_open : string -> Fs -> option (Document Pixmap);
  save : Pixmap -> string -> Fs -> option Fs;
  read_file : string -> Fs -> option Pixmap
}.

Section Extract.
Context {Fs Pixmap : Type} `{!Disk Fs Pixmap}.

(** One turn of the loop: the file system and the paths collected so far. *)
Definition extract_step (doc : Document Pixmap) (output_dir : string) (dpi : Z)
    (st : Fs * list string) (page_num : nat) : option (Fs * list string) :=
  let '(fs, extracted_images) := st in
  let zoom := (inject_Z dpi / 72)%Q in
  pix ← get_pixmap doc page_num zoom;
  let output_path := page_path output_dir page_num in
  fs ← save pix output_path fs;
  Some (fs, extracted_images ++ [output_path]).

(** The loop over the page numbers, left to right; it stops at the first
    turn that raises. *)
Fixpoint extract_loop (doc : Document Pixmap) (output_dir : string) (dpi : Z)
    (st : Fs * list string) (page_nums : list nat) : option (Fs * list string) :=
  match page_nums with
  | [] => Some st
  | page_num :: rest =>
      st ← extract_step doc output_dir dpi st page_num;
      extract_loop doc output_dir dpi st rest
  end.

(** [extract_pages_from_pdf]: the file system after the run and the list
    returned. *)
Definition extract_pages_from_pdf (pdf_path output_dir : string) (dpi : Z)
    (fs : Fs) : option (Fs * list string) :=
  fs ← makedirs output_dir fs;
  doc ← fitz_open pdf_path fs;
  extract_loop doc output_dir dpi (fs, []) (seq 0 (page_count doc)).

(** A file that has been saved holds the pixmap saved. *)
Definition reads_back : Prop :=
  forall (pix : Pixmap) (path : string) (fs fs' : Fs),
    save pix path fs = Some fs' -> read_file path fs' = Some pix.

(** Saving the file of a page leaves the files of the pages with other
    names in that directory as they were: no two of these names lead to
    one file. *)
Definition keeps_other_pages : Prop :=
  forall (output_dir : string) (i j : nat) (pix : Pixmap) (fs fs' : Fs),
    page_path output_dir i <> page_path output_dir j ->
    save pix (page_path output_dir i) fs = Some fs' ->
    read_file (page_path output_dir j) fs' = read_file (page_path output_dir j) fs.
End Extract.

(** The document cut after its first [k] pages. *)
Definition first_pages {Pixmap : Type} (k : nat) (doc : Document Pixmap)
    : Document Pixmap :=
  mkDocument (Nat.min k (page_count doc)) (get_pixmap doc).

Definition default_dpi : Z := 150.

End PdfExtractor.

(** ** The complete pipeline *)

Module Pipeline.
Import PdfExtractor PanelDetector Narrator VideoGenerator.

Section Run.
Context {Fs Pixmap : Type} `{!Disk Fs Pixmap}.
(** What the pipeline calls and this development does not look into:
    - [decode]: the pixels that [cv2.imread] makes of a saved page, [None]
      when it cannot decode the file;
    - [load]: the pixels that [ImageClip] makes of a saved page, [None]
      when it raises;
    - [find_contours]: the threshold at 240 followed by
      [cv2.findContours(binary, RETR_EXTERNAL, CHAIN_APPROX_SIMPLE)];
    - [ocr]: [extract_text_from_panel];
    - [tts]: the audio directory made and
      [MangaNarrator().generate_narration] run, giving the duration of the
      audio file written, or [None] when a step raises;
    - [resize]: [cv2.resize]. *)
Context (decode load : Pixmap -> option Image)
        (find_contours : Image -> list Cv2.Contour)
        (ocr : Panel -> string)
        (tts : string -> option Q)
        (resize : Cv2.Interpolation -> Image -> Z * Z -> option Image).

(** The image library over the files on disk. *)
Definition file_lib (fs : Fs) : ImageLib :=
  {| imread := fun path => pix ← read_file path fs; load pix;
     cv2_resize := resize |}.

(** The panels of a page image, with the default minimum area. *)
Definition panels_of_image (img : Image) : list Panel :=
  detect_panels img (find_contours img) default_min_area.

(** [detect_panels(img_path)]: [cv2.imread] gives [None] for a file that
    is missing or that it cannot decode, and [cv2.cvtColor] raises on
    [None]. *)
Definition detect_panels_at (fs : Fs) (img_path : string)
    : option (list Panel) :=
  pix ← read_file img_path fs;
  img ← decode pix;
  Some (panels_of_image img).

(** The panels of each of the first 20 page images. *)
Definition analysed_pages (fs : Fs) (images : list string)
    : option (list (list Panel)) :=
  mapM (detect_panels_at fs) (take 20 images).

(** [create_manga_recap_video] with the temporary directory [temp_dir], up
    to the video handed to [write_videofile]. *)
Definition create_manga_recap_video (pdf_path temp_dir title : string)
    (fs : Fs) : option Video :=
  let pages_dir := path_join temp_dir "pages" in
  '(fs, images) ← extract_pages_from_pdf pdf_path pages_dir default_dpi fs;
  pages ← analysed_pages fs images;
  let script := pipeline_script ocr pages in
  audio ← tts script;
  @create_manga_recap (file_lib fs) default_generator
    (pipeline_scenes images) (Some audio) title.


End Run.

End Pipeline.

(** ** The page component: its state and its handlers *)

Module Home.

Record File := mkFile {
  name : string;
  type : string;
  size : Z
}.

Inductive Tab := upload | docs | local.

Inductive Status := pending | processing | complete | error.

Record ProcessingStep := mkStep {
  id : string;
  status : Status
}.

(** The state hooks of [Home], and the number of [setTimeout] callbacks
    that have not run yet. *)
Record State := mkState {
  uploadedFile : option File;
  activeTab : Tab;
  expandedSection : option string;
  copiedCode : option string;
  processingSteps : list ProcessingStep;
  timers : nat
}.

Definition initial : State :=
  mkState None upload (Some "architecture") None
    [mkStep "extract" pending; mkStep "analyze" pending; mkStep "script" pending;
     mkStep "voice" pending; mkStep "video" pending]
    0.

Inductive Event :=
| Drop (acceptedFiles : list File)
| SetActiveTab (tab : Tab)
| ToggleSection (section : string)
| CopyToClipboard (code id : string)
| Timeout.

(** [onDrop]: only [acceptedFiles[0]] is looked at. *)
Definition onDrop (acceptedFiles : list File) (st : State) : State :=
  match acceptedFiles with
  | file :: _ =>
      if String.eqb (type file) "application/pdf"
      then mkState (Some file) (activeTab st) (expandedSection st)
             (copiedCode st) (processingSteps st) (timers st)
      else st
  | [] => st
  end.

Definition toggleSection (section : string) (st : State) : State :=
  mkState (uploadedFile st) (activeTab st)
    (if decide (expandedSection st = Some section) then None else Some section)
    (copiedCode st) (processingSteps st) (timers st).

(** [copyToClipboard]: the mark is set and a callback is scheduled. *)
Definition copyToClipboard (code id : string) (st : State) : State :=
  mkState (uploadedFile st) (activeTab st) (expandedSection st)
    (Some id) (processingSteps st) (S (timers st)).

(** A scheduled callback runs: [setCopiedCode(null)]. *)
Definition timeout (st : State) : State :=
  match timers st with
  | O => st
  | S n => mkState (uploadedFile st) (activeTab st) (expandedSection st)
             None (processingSteps st) n
  end.

Definition step (st : State) (e : Event) : State :=
  match e with
  | Drop acceptedFiles => onDrop acceptedFiles st
  | SetActiveTab tab =>
      mkState (uploadedFile st) tab (expandedSection st) (copiedCode st)
        (processingSteps st) (timers st)
  | ToggleSection section => toggleSection section st
  | CopyToClipboard code id => copyToClipboard code id st
  | Timeout => timeout st
  end.

Definition run (events : list Event) : State := foldl step initial events.

(** The last section toggled and the last snippet copied in a trace. *)
Definition last_toggled (events : list Event) : option string :=
  last (omap (fun e => match e with ToggleSection s => Some s | _ => None end) events).

Definition last_copied (events : list Event) : option string :=
  last (omap (fun e => match e with
                       | CopyToClipboard code id => Some id
                       | _ => None
                       end) events).

End Home.

(** ** More sample inputs *)

Module MoreSamples.

(** A page of 32 by 32 pixels with two marks of 6 by 6 pixels in the same
    band, and their contours. *)
Definition two_marks_page : Image :=
  Samples.raster 32 32 (fun x y =>
    (Samples.within 2 7 x && Samples.within 2 7 y)
    || (Samples.within 20 25 x && Samples.within 4 9 y)).
Definition left_mark : Cv2.Contour := [(2, 2); (2, 7); (7, 7); (7, 2)].
Definition right_mark : Cv2.Contour := [(20, 4); (20, 9); (25, 9); (25, 4)].

(** One scene whose dict has no ['image'] key, after a well-formed one. *)
Definition scenes_missing_image : list (gmap string VideoGenerator.PyVal) :=
  [ {[ "image" := VideoGenerator.PyStr "page_0000.png" ]};
    {[ "duration" := VideoGenerator.PyNum 5%Q ]} ].

(** A disk that is a map from paths to pixmaps and a shelf of documents:
    every directory can be made and every file written. *)
Definition map_disk {Pixmap : Type}
    (shelf : string -> option (PdfExtractor.Document Pixmap))
    : PdfExtractor.Disk (gmap string Pixmap) Pixmap :=
  {| PdfExtractor.makedirs := fun _ fs => Some fs;
     PdfExtractor.fitz_open := fun pdf_path _ => shelf pdf_path;
     PdfExtractor.save := fun pix path fs => Some (<[path := pix]> fs);
     PdfExtractor.read_file := fun path fs => fs !! path |}.

(** A document whose pixmaps are the page numbers. *)
Definition numbered (page_count : nat) : PdfExtractor.Document nat :=
  PdfExtractor.mkDocument page_count (fun page_num _ => Some page_num).

(** A disk with that document under every name and with one stale file,
    and the extraction of the document on it. *)
Definition number_disk : PdfExtractor.Disk (gmap string nat) nat :=
  map_disk (fun _ => Some (numbered 3)).
Definition stale_file : gmap string nat := {[ "out/page_0001.png" := 7%nat ]}.
Definition extracted_numbers : option (gmap string nat * list string) :=
  @PdfExtractor.extract_pages_from_pdf _ _ number_disk "book.pdf" "out" 150
    stale_file.

(** What the files at the paths returned hold after it. *)
Definition numbers_read_back : option (list (option nat)) :=
  match extracted_numbers with
  | Some (fs, paths) => Some ((fun path => fs !! path) <$> paths)
  | None => None
  end.

(** Page [page_num] of the sample book: a strip of 10 by 1296 pixels with
    one panel of 9 by 1251 pixels and a mark below it that moves with the
    page number; the contour of the panel. *)
Definition strip_page (page_num : nat) : Image :=
  Samples.raster 10 1296 (fun x y =>
    (Samples.within 0 8 x && Samples.within 0 1250 y)
    || ((x =? 9) && (y =? 1260 + Z.of_nat page_num))).
Definition strip_panel : Cv2.Contour := [(0, 0); (0, 1250); (8, 1250); (8, 0)].

(** The sample book with [page_count] pages, and the same book with a page
    that cannot be rendered. *)
Definition book (page_count : nat) : PdfExtractor.Document Image :=
  PdfExtractor.mkDocument page_count (fun page_num _ => Some (strip_page page_num)).
Definition torn_book (page_count bad : nat) : PdfExtractor.Document Image :=
  PdfExtractor.mkDocument page_count
    (fun page_num _ => if (page_num =? bad)%nat then None else Some (strip_page page_num)).

Definition shelf (pdf_path : string) : option (PdfExtractor.Document Image) :=
  if String.eqb pdf_path "book2.pdf" then Some (book 2)
  else if String.eqb pdf_path "book20.pdf" then Some (book 20)
  else if String.eqb pdf_path "book22.pdf" then Some (book 22)
  else if String.eqb pdf_path "torn22.pdf" then Some (torn_book 22 21)
  else None.

(** Stand-ins for what the pipeline calls: a saved page decodes to its
    pixels, the panel of the strip is found, every panel reads as one
    word, the narration lasts a second for each character of the script,
    and resizing to the size that a picture has hands the picture back. *)
Definition as_saved (pix : Image) : option Image := Some pix.
Definition strip_contours (img : Image) : list Cv2.Contour := [strip_panel].
Definition one_word (panel : PanelDetector.Panel) : string := "Hello".
Definition second_per_character (script : string) : option Q :=
  Some (inject_Z (Z.of_nat (String.length script))).
Definition same_size (i : Cv2.Interpolation) (pic : Image) (size : Z * Z)
    : option Image :=
  if (size.1 =? img_width pic) && (size.2 =? img_height pic) then Some pic else None.

Definition disk : PdfExtractor.Disk (gmap string Image) Image := map_disk shelf.

Definition run (pdf_path : string) : option VideoGenerator.Video :=
  @Pipeline.create_manga_recap_video _ _ disk as_saved as_saved
    strip_contours one_word second_per_character same_size
    pdf_path "/tmp/recap" "Recap" ∅.



End MoreSamples.

(** * Properties *)

(** ** The stable sort *)

Section SortFacts.
Context {A : Type} (key : A -> Z * Z).

#[local] Abbreviation key_le := (Py.key_le key).

Lemma tuple_lt_irrefl (k : Z * Z) : Py.tuple_lt k k = false.
Proof.
  unfold Py.tuple_lt. rewrite !Z.ltb_irrefl, Z.eqb_refl. reflexivity.
Qed.

Lemma tuple_lt_spec (a b : Z * Z) :
  Py.tuple_lt a b = true <-> a.1 < b.1 \/ (a.1 = b.1 /\ a.2 < b.2).
Proof.
  unfold Py.tuple_lt.
  rewrite orb_true_iff, andb_true_iff, !Z.ltb_lt, Z.eqb_eq. reflexivity.
Qed.

Lemma tuple_lt_false (a b : Z * Z) :
  Py.tuple_lt a b = false <-> b.1 < a.1 \/ (a.1 = b.1 /\ b.2 <= a.2).
Proof.
  destruct (Py.tuple_lt a b) eqn:E.
  - apply tuple_lt_spec in E. split; [discriminate | lia].
  - split; [intros _ | reflexivity].
    destruct (Z.lt_trichotomy a.1 b.1) as [H | [H | H]].
    + assert (Py.tuple_lt a b = true) by (apply tuple_lt_spec; lia). congruence.
    + destruct (Z.lt_ge_cases a.2 b.2) as [H2 | H2]; [| lia].
      assert (Py.tuple_lt a b = true) by (apply tuple_lt_spec; lia). congruence.
    + lia.
Qed.

Lemma key_le_trans (a b c : A) : key_le a b -> key_le b c -> key_le a c.
Proof. unfold Py.key_le. rewrite !tuple_lt_false. lia. Qed.

Lemma key_le_of_lt (a b : A) : Py.tuple_lt (key a) (key b) = true -> key_le a b.
Proof. unfold Py.key_le. rewrite tuple_lt_spec, tuple_lt_false. lia. Qed.

Lemma insert_sorted_perm (p : A) (l : list A) :
  Py.insert_sorted key p l ≡ₚ p :: l.
Proof.
  induction l as [| q l IH]; simpl; [reflexivity |].
  destruct (Py.tuple_lt (key q) (key p)); [| reflexivity].
  rewrite IH. apply Permutation_swap.
Qed.

Lemma sort_perm (l : list A) : Py.sort key l ≡ₚ l.
Proof.
  induction l as [| p l IH]; simpl; [reflexivity |].
  rewrite insert_sorted_perm. by rewrite IH.
Qed.

Lemma insert_sorted_hd (p q : A) (l : list A) :
  key_le q p -> HdRel key_le q l -> HdRel key_le q (Py.insert_sorted key p l).
Proof.
  intros Hqp Hl. destruct l as [| r l]; simpl.
  - by constructor.
  - destruct (Py.tuple_lt (key r) (key p)); constructor; [| done].
    by inversion Hl.
Qed.

Lemma insert_sorted_sorted (p : A) (l : list A) :
  Sorted key_le l -> Sorted key_le (Py.insert_sorted key p l).
Proof.
  induction l as [| q l IH]; simpl; intros Hs.
  - repeat constructor.
  - inversion Hs as [| ? ? Hs' Hhd]; subst.
    destruct (Py.tuple_lt (key q) (key p)) eqn:E.
    + constructor; [by apply IH |].
      apply insert_sorted_hd; [by apply key_le_of_lt | done].
    + constructor; [done |]. by constructor.
Qed.

Lemma sort_sorted (l : list A) : Sorted key_le (Py.sort key l).
Proof.
  induction l as [| p l IH]; simpl; [constructor |].
  by apply insert_sorted_sorted.
Qed.

(** Insertion only moves [p] past elements with another key. *)
Lemma insert_sorted_filter (k : Z * Z) (p : A) (l : list A) :
  filter (fun a => key a = k) (Py.insert_sorted key p l)
  = filter (fun a => key a = k) (p :: l).
Proof.
  induction l as [| q l IH]; simpl; [reflexivity |].
  destruct (Py.tuple_lt (key q) (key p)) eqn:E; [| reflexivity].
  rewrite (filter_cons _ q), IH, !filter_cons.
  destruct (decide (key q = k)) as [Hq | Hq], (decide (key p = k)) as [Hp | Hp];
    try reflexivity.
  rewrite Hq, Hp, tuple_lt_irrefl in E. discriminate.
Qed.

Lemma sort_stable (k : Z * Z) (l : list A) :
  filter (fun a => key a = k) (Py.sort key l) = filter (fun a => key a = k) l.
Proof.
  induction l as [| p l IH]; simpl; [reflexivity |].
  rewrite insert_sorted_filter, !filter_cons, IH. reflexivity.
Qed.

Lemma Sorted_adjacent (R : A -> A -> Prop) (l : list A) (i : nat) (a b : A) :
  Sorted R l -> l !! i = Some a -> l !! S i = Some b -> R a b.
Proof.
  intros Hs. revert i. induction Hs as [| c l Hs IH Hhd]; intros i Ha Hb.
  - discriminate.
  - destruct i as [| i]; simpl in *.
    + injection Ha as ->. destruct l; [discriminate |].
      injection Hb as ->. by inversion Hhd.
    + eauto.
Qed.

Lemma key_le_refl (a : A) : key_le a a.
Proof. apply tuple_lt_irrefl. Qed.

Lemma key_le_antisym (a b : A) : key_le a b -> key_le b a -> key a = key b.
Proof.
  unfold Py.key_le. rewrite !tuple_lt_false. intros H1 H2.
  destruct (key a) as [a1 a2], (key b) as [b1 b2]; simpl in *.
  f_equal; lia.
Qed.

Lemma Sorted_key_le_head (a : A) (l : list A) (b : A) :
  Sorted key_le (a :: l) -> b ∈ a :: l -> key_le a b.
Proof.
  intros Hs Hin. apply Sorted_StronglySorted in Hs.
  - apply StronglySorted_inv in Hs as [_ Hall].
    apply elem_of_cons in Hin as [-> | Hin]; [apply key_le_refl |].
    rewrite Forall_forall in Hall. by apply Hall.
  - intros x y z. apply key_le_trans.
Qed.

Lemma head_in_own_filter (a : A) (l : list A) :
  filter (fun x => key x = key a) (a :: l)
  = a :: filter (fun x => key x = key a) l.
Proof. by rewrite filter_cons, decide_True. Qed.

(** Two sorted lists that agree, key by key, on the order of their
    elements are the same list. *)
Lemma sorted_stable_unique (l1 l2 : list A) :
  Sorted key_le l1 -> Sorted key_le l2 ->
  (forall k, filter (fun a => key a = k) l1 = filter (fun a => key a = k) l2) ->
  l1 = l2.
Proof.
  revert l2. induction l1 as [| a t1 IH]; intros [| b t2] Hs1 Hs2 Hf.
  - reflexivity.
  - specialize (Hf (key b)). rewrite head_in_own_filter in Hf. discriminate.
  - specialize (Hf (key a)). rewrite head_in_own_filter in Hf. discriminate.
  - assert (key a = key b) as Hk.
    { apply key_le_antisym.
      - apply (Sorted_key_le_head a t1 b Hs1).
        eapply (list_elem_of_filter (fun x => key x = key b)). rewrite Hf, head_in_own_filter.
        apply elem_of_cons. by left.
      - apply (Sorted_key_le_head b t2 a Hs2).
        eapply (list_elem_of_filter (fun x => key x = key a)). rewrite <- Hf, head_in_own_filter.
        apply elem_of_cons. by left. }
    pose proof (Hf (key a)) as Ha.
    rewrite head_in_own_filter, (filter_cons _ b), decide_True in Ha by done.
    injection Ha as -> Ht. f_equal.
    apply IH; [by inversion Hs1 | by inversion Hs2 |].
    intros k. specialize (Hf k). rewrite !filter_cons in Hf.
    destruct (decide (key b = k)) as [<- | Hne]; [exact Ht | done].
Qed.

(** So the result of a stable sort does not depend on the algorithm: any
    sorted list that keeps the elements of each key in their order in [l]
    is [Py.sort key l]. *)
Lemma sort_unique (l l' : list A) :
  Sorted key_le l' ->
  (forall k, filter (fun a => key a = k) l' = filter (fun a => key a = k) l) ->
  l' = Py.sort key l.
Proof.
  intros Hs Hf. apply sorted_stable_unique; [done | apply sort_sorted |].
  intros k. by rewrite Hf, sort_stable.
Qed.
End SortFacts.

(** ** Panel detection *)

Section PanelDetectorFacts.
Import PanelDetector.

Lemma detect_step_spec (img : Image) (min_area : Z) (panels : list Panel)
    (contour : Cv2.Contour) :
  detect_step img min_area panels contour
  = panels ++ (if survives min_area contour then [panel_of img contour] else []).
Proof.
  unfold detect_step, survives, panel_of.
  destruct (Py.Qltb _ _); simpl.
  - by rewrite app_nil_r.
  - by destruct (Cv2.boundingRect contour) as [[[? ?] ?] ?].
Qed.

Lemma foldl_detect_step (img : Image) (min_area : Z) (contours : list Cv2.Contour)
    (panels : list Panel) :
  foldl (detect_step img min_area) panels contours
  = panels ++ (panel_of img <$> filter (fun c => survives min_area c) contours).
Proof.
  revert panels. induction contours as [| c cs IH]; intros panels; simpl.
  - by rewrite app_nil_r.
  - rewrite IH, detect_step_spec, filter_cons.
    destruct (survives min_area c); simpl.
    + by rewrite <- app_assoc.
    + by rewrite app_nil_r.
Qed.

(** The loop keeps one panel for each contour that passes the area test,
    in the order of the contours. *)
Lemma detected_spec (img : Image) (contours : list Cv2.Contour) (min_area : Z) :
  detected img contours min_area
  = panel_of img <$> filter (fun c => survives min_area c) contours.
Proof. unfold detected. by rewrite foldl_detect_step. Qed.

Lemma bbox_panel_of (img : Image) (c : Cv2.Contour) :
  bbox (panel_of img c) = Cv2.boundingRect c.
Proof.
  unfold panel_of. by destruct (Cv2.boundingRect c) as [[[? ?] ?] ?].
Qed.

Lemma survives_false_iff (min_area : Z) (c : Cv2.Contour) :
  survives min_area c = false <-> (Cv2.contourArea c < inject_Z min_area)%Q.
Proof.
  unfold survives, Py.Qltb. rewrite negb_involutive.
  destruct (Qle_bool _ _) eqn:E.
  - apply Qle_bool_iff in E. split; [discriminate |].
    intros H. exfalso. by apply (Qlt_not_le _ _ H).
  - split; [intros _ | reflexivity].
    apply Qnot_le_lt. intros H. apply Qle_bool_iff in H. congruence.
Qed.

(** C2: the panels of a page come out in reading order.  Of two panels
    next to each other in the result, the first is in the same band
    (y-coordinate divided by 100, rounded down) or a higher one on the page,
    and in the same band it is not to the left of the second; panels with
    the same band and the same x keep the order in which they were detected. *)
Theorem detect_panels_reading_order (img : Image) (contours : list Cv2.Contour)
    (min_area : Z) :
  let panels := detect_panels img contours min_area in
  (forall (i : nat) (p q : Panel),
     panels !! i = Some p -> panels !! S i = Some q ->
     band p <= band q /\ (band p = band q -> x p >= x q))
  /\ (forall b x0 : Z,
        filter (fun p => band p = b /\ x p = x0) panels
        = filter (fun p => band p = b /\ x p = x0) (detected img contours min_area)).
Proof.
  cbn zeta. unfold detect_panels. split.
  - intros i p q Hp Hq.
    pose proof (Sorted_adjacent _ _ _ _ _ (sort_sorted sort_key _) Hp Hq) as H.
    unfold Py.key_le in H. apply tuple_lt_false in H.
    unfold sort_key, band in *. simpl in H. lia.
  - intros b x0.
    pose proof (sort_stable sort_key (b, - x0) (detected img contours min_area)) as H.
    erewrite (list_filter_iff _ (fun p => sort_key p = (b, - x0))).
    + rewrite H. apply list_filter_iff.
      intros p. unfold sort_key, band. split; [intros [= <- ?]; split; lia | intros [<- <-]; done].
    + intros p. unfold sort_key, band. split; [intros [<- <-]; done | intros [= <- ?]; split; lia].
Qed.

Lemma sort_nil_inv {A : Type} (key : A -> Z * Z) (l : list A) :
  Py.sort key l = [] -> l = [].
Proof.
  intros Hnil. apply Permutation_nil_r. rewrite <- Hnil. by rewrite sort_perm.
Qed.

Lemma filter_survives_nil (min_area : Z) (contours : list Cv2.Contour) :
  filter (fun c => survives min_area c) contours = []
  <-> Forall (fun c => (Cv2.contourArea c < inject_Z min_area)%Q) contours.
Proof.
  induction contours as [| c cs IH]; [by split |].
  rewrite filter_cons, Forall_cons, <- IH, <- survives_false_iff.
  destruct (survives min_area c); simpl; split; try done;
    intros [? ?]; done.
Qed.

(** C3, as the code has it: when no contour reaches the minimum area the
    result is the empty list; no full-page panel stands in.  The result is
    empty in that case only. *)
Theorem detect_panels_none_survive (img : Image) (contours : list Cv2.Contour)
    (min_area : Z) :
  Forall (fun c => (Cv2.contourArea c < inject_Z min_area)%Q) contours
  <-> detect_panels img contours min_area = [].
Proof.
  unfold detect_panels. rewrite detected_spec, <- filter_survives_nil. split.
  - by intros ->.
  - intros Hnil. apply sort_nil_inv in Hnil. by apply fmap_nil_inv in Hnil.
Qed.

(** C4, as the code has it: nothing is discarded for lying inside another
    box.  The boxes of the result are the bounding rectangles of the
    contours that reach the minimum area, each of them, in reading order. *)
Theorem detect_panels_keeps_every_box (img : Image) (contours : list Cv2.Contour)
    (min_area : Z) :
  bbox <$> detect_panels img contours min_area
  ≡ₚ Cv2.boundingRect <$> filter (fun c => survives min_area c) contours.
Proof.
  unfold detect_panels. rewrite sort_perm, detected_spec, <- list_fmap_compose.
  apply Permutation_refl'. apply list_fmap_ext. intros ? c ?. apply bbox_panel_of.
Qed.

Lemma detect_panels_none_survive_speck :
  Forall (fun c => (Cv2.contourArea c < inject_Z default_min_area)%Q)
    [Samples.speck]
  /\ detect_panels Samples.speck_page [Samples.speck] default_min_area = [].
Proof.
  assert (Forall (fun c => (Cv2.contourArea c < inject_Z default_min_area)%Q)
            [Samples.speck]) as Hsmall by (repeat constructor).
  split; [exact Hsmall |].
  exact (proj1 (detect_panels_none_survive Samples.speck_page [Samples.speck]
                  default_min_area) Hsmall).
Defined.

(** A blank page has no contour, and the result has no panel at all. *)
Lemma detect_panels_blank_page :
  detect_panels Samples.blank_page [] default_min_area = [].
Proof. reflexivity. Qed.

(** Two outer contours, both above the minimum area: both panels are in
    the result although the second box lies inside the first. *)
Lemma detect_panels_nested_boxes :
  bbox <$> detect_panels Samples.nested_page
             [Samples.l_shape; Samples.square] default_min_area
  = [(0, 0, 301, 301); (150, 150, 131, 131)]
  /\ box_inside (150, 150, 131, 131) (0, 0, 301, 301) = true.
Proof. split; vm_compute; reflexivity. Qed.

End PanelDetectorFacts.

(** ** The narration script *)

Section NarratorFacts.
Import Narrator.

#[local] Instance has_content_dec (panel : gmap string string) :
  Decision (has_content panel).
Proof. unfold has_content. apply _. Defined.

Lemma truthy_spec (s : string) : truthy s = true <-> s <> "".
Proof.
  unfold truthy. rewrite negb_true_iff. split.
  - intros E ->. by rewrite String.eqb_refl in E.
  - intros Hne. destruct (String.eqb_spec s ""); [done | reflexivity].
Qed.

Lemma truthy_false (s : string) : truthy s = false <-> s = "".
Proof.
  unfold truthy. rewrite negb_false_iff. apply String.eqb_eq.
Qed.

Lemma script_step_silent (parts : list string) (panel : gmap string string) :
  ~ has_content panel -> script_step parts panel = parts.
Proof.
  unfold has_content, script_step. fold (panel_text panel) (panel_description panel).
  intros Hno.
  destruct (truthy (panel_text panel)) eqn:Et.
  { apply truthy_spec in Et. tauto. }
  destruct (truthy (panel_description panel)) eqn:Ed.
  { apply truthy_spec in Ed. tauto. }
  reflexivity.
Qed.

Lemma script_step_unit (parts : list string) (panel : gmap string string) :
  has_content panel ->
  exists unit, script_step parts panel = parts ++ [unit] /\ unit_of panel unit.
Proof.
  unfold has_content, unit_of, script_step.
  fold (panel_text panel) (panel_description panel). intros Hc.
  destruct (truthy (panel_text panel)) eqn:Et.
  { apply truthy_spec in Et. eauto. }
  apply truthy_false in Et.
  destruct (truthy (panel_description panel)) eqn:Ed.
  - apply truthy_spec in Ed. eexists. split; [reflexivity |]. right. eauto.
  - apply truthy_false in Ed. tauto.
Qed.

Lemma foldl_script_step (panels : list (gmap string string)) (parts : list string) :
  exists units,
    foldl script_step parts panels = parts ++ units
    /\ Forall2 unit_of (filter has_content panels) units.
Proof.
  revert parts. induction panels as [| panel panels IH]; intros parts; simpl.
  - exists []. by rewrite app_nil_r.
  - rewrite filter_cons. destruct (decide (has_content panel)) as [Hc | Hc].
    + destruct (script_step_unit parts panel Hc) as (unit & -> & Hu).
      destruct (IH (parts ++ [unit])) as (units & -> & Hus).
      exists (unit :: units). rewrite <- app_assoc. split; [done |].
      by constructor.
    + rewrite (script_step_silent _ _ Hc). apply IH.
Qed.

Lemma unit_of_nonempty (panel : gmap string string) (unit : string) :
  unit_of panel unit -> unit <> "".
Proof. intros [[? ->] | (_ & _ & ->)]; [done | discriminate]. Qed.

Lemma join_nonempty (sep s : string) (rest : list string) :
  s <> "" -> Py.join sep (s :: rest) <> "".
Proof.
  intros Hs. destruct s as [| a s]; [done |].
  simpl. destruct rest; discriminate.
Qed.

(** The pipeline's own script keeps the texts that are not empty and has
    nothing for the other panels. *)
Lemma collect_text_spec (ocr : PanelDetector.Panel -> string)
    (pages : list (list PanelDetector.Panel)) :
  collect_text ocr pages = filter (fun s => s <> "") (ocr <$> concat pages).
Proof.
  unfold collect_text.
  enough (forall acc,
    foldl (fun all_text panels =>
             foldl (fun all_text panel =>
                      let text := ocr panel in
                      if truthy text then all_text ++ [text] else all_text)
                   all_text panels) acc pages
    = acc ++ filter (fun s => s <> "") (ocr <$> concat pages)) as H by apply H.
  induction pages as [| panels pages IH]; intros acc; simpl.
  - by rewrite app_nil_r.
  - rewrite IH, fmap_app, filter_app, app_assoc. f_equal.
    clear IH. revert acc. induction panels as [| p panels IHp]; intros acc; simpl.
    + by rewrite app_nil_r.
    + rewrite IHp, filter_cons. destruct (truthy (ocr p)) eqn:E.
      * apply truthy_spec in E. rewrite decide_True by done.
        by rewrite <- app_assoc.
      * apply truthy_false in E. rewrite decide_False by (by intros ?). done.
Qed.

(** C9, as the code has it: the parts of the script stand, one for one and
    in order, for the panels that have text or a description: the text
    where there is some, the marker [[Scene: description]] where there is
    only a description.  A panel with neither gets no part.  The script is
    not empty as soon as one panel has text or a description.  The
    pipeline's own loop keeps the OCR texts that are not empty, in order,
    and has no part for a panel whose text is empty. *)
Theorem create_recap_script_units (panels_data : list (gmap string string))
    (ocr : PanelDetector.Panel -> string)
    (pages : list (list PanelDetector.Panel)) :
  Forall2 unit_of (filter has_content panels_data) (script_parts panels_data)
  /\ (Exists has_content panels_data -> create_recap_script panels_data <> "")
  /\ collect_text ocr pages = filter (fun s => s <> "") (ocr <$> concat pages).
Proof.
  split_and!; [| | apply collect_text_spec].
  - unfold script_parts.
    by destruct (foldl_script_step panels_data []) as (units & -> & Hus).
  - unfold create_recap_script, script_parts.
    destruct (foldl_script_step panels_data []) as (units & -> & Hus). simpl.
    intros Hex. apply Exists_exists in Hex as (panel & Hin & Hc).
    assert (panel ∈ filter has_content panels_data) as Hf.
    { by apply list_elem_of_filter. }
    remember (filter has_content panels_data) as speaking.
    destruct Hus as [| p u ps us Hu _]; [inversion Hf |].
    apply join_nonempty. by eapply unit_of_nonempty.
Qed.

(** One panel without text and without description: no part, and an empty
    script. *)
Lemma create_recap_script_silent_panel :
  script_parts [ {[ "text" := ""; "description" := "" ]} ] = []
  /\ create_recap_script [ {[ "text" := ""; "description" := "" ]} ] = "".
Proof. split; vm_compute; reflexivity. Qed.

End NarratorFacts.


(** ** The renderer *)

Section RendererFacts.
Import PyFloat Renderer.
Context `{VideoGenerator.ImageLib}.

(** An evaluation writes nothing. *)
Lemma zoom_and_pan_reads_only (c : Closure) (t : float) (s : Store) :
  (zoom_and_pan c t s).2 = s.
Proof. reflexivity. Qed.

(** Of the store, the frame sees [self.resolution] and the still image. *)
Lemma zoom_and_pan_reads (c : Closure) (t : float) (s1 s2 : Store) :
  VideoGenerator.resolution (self s1) = VideoGenerator.resolution (self s2) ->
  still s1 = still s2 ->
  (zoom_and_pan c t s1).1 = (zoom_and_pan c t s2).1.
Proof.
  intros Hres Hstill. unfold zoom_and_pan, bind, read, ret. cbn [fst].
  by rewrite Hres, Hstill.
Qed.

(** Evaluating the frames at [ts] one after the other leaves the store as
    it was, and each frame is the one its time gives when evaluated alone
    from the initial store. *)
Lemma frames_at_alone (c : Closure) (ts : list float) (s : Store) :
  frames_at c ts s = ((fun t => (zoom_and_pan c t s).1) <$> ts, s).
Proof.
  induction ts as [| t ts IH]; [reflexivity |].
  cbn [frames_at]. unfold bind at 1.
  destruct (zoom_and_pan c t s) as [f s'] eqn:E.
  assert (s' = s) as -> by (rewrite <- (zoom_and_pan_reads_only c t s); by rewrite E).
  unfold bind. rewrite IH, fmap_cons, E. reflexivity.
Qed.

(** C5, as the code has it: the frame function writes nothing, so frames
    evaluated one after the other, in whatever order, are the frames that
    their times give when evaluated alone; but it reads the generator's
    [resolution] and the still image, both shared and mutable, at every
    evaluation.  A second evaluation at [t], after anything [between] that
    has left these two as they were, gives the identical frame. *)
Theorem zoom_and_pan_repeatable {A : Type} (c : Closure) (t : float)
    (between : M A) (ts : list float) (s : Store) :
  let s' := (between s).2 in
  VideoGenerator.resolution (self s') = VideoGenerator.resolution (self s) ->
  still s' = still s ->
  evaluated_twice c t between s
  = (((zoom_and_pan c t s).1, (zoom_and_pan c t s).1), s')
  /\ frames_at c ts s = ((fun t => (zoom_and_pan c t s).1) <$> ts, s).
Proof.
  intros s' Hres Hstill. split; [| apply frames_at_alone].
  pose proof (zoom_and_pan_reads c t s' s Hres Hstill) as Hsame.
  pose proof (zoom_and_pan_reads_only c t s) as E1.
  pose proof (zoom_and_pan_reads_only c t s') as E2.
  unfold evaluated_twice, bind, ret. subst s'.
  destruct (zoom_and_pan c t s) as [first s1]. cbn [fst snd] in *. subst s1.
  destruct (between s) as [a s2]. cbn [fst snd] in *.
  destruct (zoom_and_pan c t s2) as [again s3]. cbn [fst snd] in *.
  by subst.
Qed.

End RendererFacts.

(** The frame at the start of the default clip, then two other frames and
    a new frame rate, then the same frame again. *)
Lemma zoom_and_pan_repeatable_after_frames :
  let c := Samples.default_closure "right" in
  let s' := (Samples.frames_then_fps Samples.thumbnail_store).2 in
  VideoGenerator.fps (Renderer.self s') <> VideoGenerator.fps Samples.thumbnailer
  /\ @Renderer.evaluated_twice Samples.toy_lib _ c PyFloat.zero
       Samples.frames_then_fps Samples.thumbnail_store
     = (((@Renderer.zoom_and_pan Samples.toy_lib c PyFloat.zero
            Samples.thumbnail_store).1,
         (@Renderer.zoom_and_pan Samples.toy_lib c PyFloat.zero
            Samples.thumbnail_store).1), s')
  /\ @Renderer.frames_at Samples.toy_lib c [PyFloat.ratio 2 1] Samples.thumbnail_store
     = ((fun t => (@Renderer.zoom_and_pan Samples.toy_lib c t
                     Samples.thumbnail_store).1) <$> [PyFloat.ratio 2 1],
        Samples.thumbnail_store).
Proof.
  cbn zeta. split; [vm_compute; discriminate |].
  apply (@zoom_and_pan_repeatable Samples.toy_lib unit
           (Samples.default_closure "right") PyFloat.zero
           Samples.frames_then_fps [PyFloat.ratio 2 1] Samples.thumbnail_store);
    vm_compute; reflexivity.
Defined.

(** The same frame asked for twice, with [generator.resolution = (8, 4)]
    between the two evaluations: the first frame has 16 by 9 pixels, the
    second 8 by 4. *)
Lemma zoom_and_pan_resolution_reassigned :
  exists first again : Image,
    (@Renderer.evaluated_twice Samples.toy_lib _ (Samples.default_closure "right")
       PyFloat.zero (Renderer.set_resolution (8, 4)) Samples.thumbnail_store).1
    = (Some first, Some again)
    /\ (img_width first, img_height first) = (16, 9)
    /\ (img_width again, img_height again) = (8, 4)
    /\ first <> again.
Proof.
  eexists _, _. split; [vm_compute; reflexivity |].
  split; [reflexivity |]. split; [reflexivity |]. discriminate.
Qed.


Section CropWindowFacts.
Import VideoGenerator.

Lemma int_floor (q : Q) : (0 <= q)%Q -> Py.int q = Qfloor q.
Proof.
  destruct q as [n d]. unfold Qle, Py.int; simpl. intros Hn.
  apply Z.quot_div_nonneg; lia.
Qed.

Lemma int_le (q : Q) (n : Z) : (0 <= q)%Q -> (q <= inject_Z n)%Q -> Py.int q <= n.
Proof.
  intros H0 Hle. rewrite int_floor by done.
  rewrite <- (Qfloor_Z n). by apply Qfloor_resp_le.
Qed.

Lemma int_ge (q : Q) (n : Z) : 0 <= n -> (inject_Z n <= q)%Q -> n <= Py.int q.
Proof.
  intros H0 Hle. rewrite int_floor.
  - rewrite <- (Qfloor_Z n). by apply Qfloor_resp_le.
  - eapply Qle_trans; [| exact Hle]. unfold Qle; simpl. lia.
Qed.

Lemma zoom_at_least_one (z0 z1 p : Q) :
  (1 <= z0 -> 1 <= z1 -> 0 <= p -> p <= 1 -> 1 <= z0 + (z1 - z0) * p)%Q.
Proof. intros. nra. Qed.

(** The resize to [int(self.resolution[1] * zoom_end)] rows does leave room
    for the window in the vertical direction: for zoom factors of at least
    1 and a time within the clip the rows of the window are rows of the
    frame, whatever the width of the frame. *)
Lemma crop_window_height_fits (res : Z * Z) (k : KenBurns) (w : Z) (t : Q)
    (x_offset y_offset crop_w crop_h : Z) :
  0 <= res.2 ->
  (1 <= zoom_start k)%Q -> (1 <= zoom_end k)%Q ->
  (0 < duration k)%Q -> (0 <= t)%Q -> (t <= duration k)%Q ->
  let h := Py.int (inject_Z res.2 * zoom_end k) in
  crop_window res k h w t = Some (x_offset, y_offset, crop_w, crop_h) ->
  0 <= y_offset /\ y_offset + crop_h <= h.
Proof.
  intros Hres Hz0 Hz1 Hd Ht0 HtT h Hwin.
  unfold crop_window in Hwin.
  destruct (Qeq_bool (duration k) 0) eqn:Ed.
  { apply Qeq_bool_iff in Ed. rewrite Ed in Hd. by apply Qlt_irrefl in Hd. }
  set (p := (t / duration k)%Q) in *.
  assert (0 <= p /\ p <= 1)%Q as [Hp0 Hp1].
  { split.
    - apply Qle_shift_div_l; [done |]. by rewrite Qmult_0_l.
    - apply Qle_shift_div_r; [done |]. by rewrite Qmult_1_l. }
  set (cz := (zoom_start k + (zoom_end k - zoom_start k) * p)%Q) in *.
  pose proof (zoom_at_least_one _ _ _ Hz0 Hz1 Hp0 Hp1) as Hcz. fold cz in Hcz.
  destruct (Qeq_bool cz 0) eqn:Ez.
  { apply Qeq_bool_iff in Ez. rewrite Ez in Hcz. by apply Qle_not_lt in Hcz. }
  set (ch := Py.int (inject_Z res.2 / cz)) in *.
  assert (0 <= inject_Z res.2)%Q as Hr by (unfold Qle; simpl; lia).
  assert (0 < cz)%Q as Hczpos by (eapply Qlt_le_trans; [| exact Hcz]; done).
  assert (ch <= res.2) as Hch.
  { apply int_le.
    - apply Qle_shift_div_l; [done |]. by rewrite Qmult_0_l.
    - apply Qle_shift_div_r; [done |]. nra. }
  assert (res.2 <= h) as Hh.
  { apply int_ge; [done |]. nra. }
  assert (0 <= (h - ch) / 2 <= h - ch) as Hhalf.
  { split; [apply Z.div_pos; lia | apply Z.div_le_upper_bound; lia]. }
  destruct (String.eqb (pan_direction k) "right");
    [| destruct (String.eqb (pan_direction k) "left")];
    injection Hwin as <- <- <- <-; lia.
Qed.

(** C6 at a portrait page of 1000 by 1500 pixels, default generator and
    zoom, at [t = 0]: the page is resized to 864 by 1296, and the window is
    1920 wide, so it runs past the right edge of the frame. *)
Theorem crop_window_portrait_page :
  resized_size (1000, 1500) (Py.int (inject_Z 1080 * (12 # 10))) = Some (864, 1296)
  /\ crop_window (1920, 1080) (mkKenBurns 5 1 (12 # 10) "right") 1296 864 0
     = Some (0, 108, 1920, 1080)
  /\ window_in_bounds 1296 864 (0, 108, 1920, 1080) = false.
Proof. repeat split; vm_compute; reflexivity. Qed.

(** Any direction other than ["right"] and ["left"] takes the last branch:
    ["up"] and ["down"] give the window of a direction that does not pan. *)
Lemma crop_window_up_down (res : Z * Z) (d z0 z1 : Q) (h w : Z) (t : Q) :
  crop_window res (mkKenBurns d z0 z1 "up") h w t
  = crop_window res (mkKenBurns d z0 z1 "none") h w t
  /\ crop_window res (mkKenBurns d z0 z1 "down") h w t
     = crop_window res (mkKenBurns d z0 z1 "none") h w t.
Proof. split; reflexivity. Qed.

(** C7 on a frame of 2304 by 1296 pixels, default generator and zoom, a
    clip of 5 seconds: with ["up"] and with ["down"] the window starts at
    [y = 108] and ends at [y = 198], the centred offsets [(h - crop_h) // 2],
    where a vertical pan would go from 0 to [h - crop_h] or back; with
    ["right"] the x-origin does go from 0 to [w - crop_w = 704]. *)
Theorem crop_window_vertical_directions :
  let frame_at dir t :=
    crop_window (1920, 1080) (mkKenBurns 5 1 (12 # 10) dir) 1296 2304 t in
  frame_at "up" 0%Q = Some (192, 108, 1920, 1080)
  /\ frame_at "up" 5%Q = Some (352, 198, 1600, 900)
  /\ frame_at "down" 0%Q = Some (192, 108, 1920, 1080)
  /\ frame_at "down" 5%Q = Some (352, 198, 1600, 900)
  /\ frame_at "right" 0%Q = Some (0, 108, 1920, 1080)
  /\ frame_at "right" 5%Q = Some (704, 198, 1600, 900)
  /\ frame_at "left" 0%Q = Some (384, 108, 1920, 1080)
  /\ frame_at "left" 5%Q = Some (0, 198, 1600, 900).
Proof. cbn zeta. repeat split; vm_compute; reflexivity. Qed.

(** The evaluations above, in binary64: at these values the frame function
    as it runs computes the windows of the exact reading, and the height
    that the still is resized to is the same. *)
Lemma window_binary64_agrees :
  Forall (fun dir =>
            Renderer.window (1920, 1080) (Samples.default_closure dir) 1296 2304
              PyFloat.zero
            = crop_window (1920, 1080) (mkKenBurns 5 1 (12 # 10) dir) 1296 2304 0
            /\ Renderer.window (1920, 1080) (Samples.default_closure dir) 1296 2304
                 (PyFloat.ratio 5 1)
               = crop_window (1920, 1080) (mkKenBurns 5 1 (12 # 10) dir) 1296 2304 5)
    ["up"; "down"; "right"; "left"]
  /\ Renderer.window (1920, 1080) (Samples.default_closure "right") 1296 864
       PyFloat.zero
     = crop_window (1920, 1080) (mkKenBurns 5 1 (12 # 10) "right") 1296 864 0
  /\ (height ← PyFloat.of_int 1080;
      PyFloat.to_int (PyFloat.mul height (PyFloat.ratio 12 10)))
     = Some (Py.int (inject_Z 1080 * (12 # 10))).
Proof. split_and!; [repeat constructor | |]; vm_compute; reflexivity. Qed.

End CropWindowFacts.

(** ** The assembled video *)

Section TimelineFacts.
Import VideoGenerator.
Local Open Scope Q_scope.

Lemma cumsum_from_length (a : Q) (ds : list Q) :
  length (cumsum_from a ds) = length ds.
Proof. revert a. induction ds as [| d ds IH]; intros a; simpl; [done | by rewrite IH]. Qed.

Lemma cumsum_from_last (a : Q) (ds : list Q) :
  exists e, last (a :: cumsum_from a ds) = Some e /\ e == a + total ds.
Proof.
  revert a. induction ds as [| d ds IH]; intros a.
  - exists a. split; [reflexivity |]. simpl. ring.
  - destruct (IH (a + d)) as (e & He & Hsum).
    exists e. split; [exact He |]. rewrite Hsum. simpl. ring.
Qed.

Lemma zip_with_clip_durations (takes : list Take) (tt : list Q) :
  (length takes <= length tt)%nat ->
  clip_duration <$> zip_with (fun c t => mkClip c.1 t c.2) takes tt = snd <$> takes.
Proof.
  revert tt. induction takes as [| c takes IH]; intros [| t tt] Hlen; simpl in *;
    try done; try lia.
  f_equal. apply IH. lia.
Qed.

(** Concatenation keeps every clip's own duration and lasts as long as
    all of them together. *)
Lemma concatenate_videoclips_durations (takes : list Take) :
  clip_duration <$> clips (concatenate_videoclips takes) = snd <$> takes
  /\ video_duration (concatenate_videoclips takes) == total (snd <$> takes).
Proof.
  unfold concatenate_videoclips; simpl. split.
  - apply zip_with_clip_durations. simpl.
    rewrite cumsum_from_length, length_fmap. apply Nat.le_succ_diag_r.
  - destruct (cumsum_from_last 0 (snd <$> takes)) as (e & -> & He).
    simpl. rewrite He. ring.
Qed.

Context `{lib : ImageLib}.

Lemma create_ken_burns_clip_duration (g : Generator) (path : string)
    (d z0 z1 : Q) (pan : string) (take : Take) :
  create_ken_burns_clip g path d z0 z1 pan = Some take -> take.2 = d.
Proof.
  unfold create_ken_burns_clip. intros Hc.
  destruct (imread path) as [pic |]; [| done]. simpl in Hc.
  destruct (moviepy_resize pic _) as [frame |]; [| done]. simpl in Hc.
  by injection Hc as <-.
Qed.

(** Every scene becomes one clip, of the scene's own duration. *)
Lemma scene_clips_durations (g : Generator) (scenes : list (gmap string PyVal))
    (i : nat) (takes : list Take) :
  scene_clips g i scenes = Some takes ->
  scene_durations scenes = Some (snd <$> takes).
Proof.
  unfold scene_durations.
  revert i takes. induction scenes as [| scene scenes IH]; intros i takes Hs.
  - by injection Hs as <-.
  - cbn [scene_clips] in Hs.
    destruct (scene_image scene) as [image |]; [| done]. simpl in Hs.
    destruct (scene_duration scene) as [d |] eqn:Ed; [| done]. simpl in Hs.
    destruct (pan_directions !! _) as [pan |]; [| done]. simpl in Hs.
    destruct (create_ken_burns_clip g image d 1 (12 # 10) pan) as [clip |] eqn:Ec;
      [| done]. simpl in Hs.
    destruct (scene_clips g (S i) scenes) as [more |] eqn:Em; [| done].
    injection Hs as <-.
    apply create_ken_burns_clip_duration in Ec.
    cbn [mapM]. rewrite Ed. simpl. rewrite (IH _ _ Em). simpl. by rewrite Ec.
Qed.

(** C10: the assembled video opens with the title card, 3 seconds long and
    starting at 0; the first scene starts at second 3, every scene keeps its
    own duration, and the whole lasts 3 seconds more than the scenes
    together. *)
Theorem concatenated_title_card (g : Generator) (scenes : list (gmap string PyVal))
    (title : string) (video : Video) :
  scenes <> [] ->
  concatenated g scenes title = Some video ->
  exists (card first : Clip) (rest : list Clip) (ds : list Q),
    clips video = card :: first :: rest
    /\ source card = TitleCard title (resolution g)
    /\ start card = 0 /\ clip_duration card = 3
    /\ start first == 3
    /\ scene_durations scenes = Some ds
    /\ clip_duration <$> (first :: rest) = ds
    /\ video_duration video == 3 + total ds.
Proof.
  intros Hne Hv. unfold concatenated in Hv.
  destruct (scene_clips g 0 scenes) as [takes |] eqn:Et; [| done].
  injection Hv as <-.
  pose proof (scene_clips_durations _ _ _ _ Et) as Hds.
  destruct (concatenate_videoclips_durations
              ((TitleCard title (resolution g), 3) :: takes)) as [Hcd Hvd].
  destruct takes as [| [c d] takes].
  { destruct scenes; [done |]. unfold scene_durations in Hds. cbn [mapM] in Hds.
    destruct (scene_duration _); [| done]. simpl in Hds.
    destruct (mapM _ _); done. }
  exists (mkClip (TitleCard title (resolution g)) 0 3), (mkClip c (0 + 3) d).
  exists (zip_with (fun c t => mkClip c.1 t c.2) takes
            (0 + 3 + d :: cumsum_from (0 + 3 + d) (snd <$> takes))).
  exists (snd <$> (c, d) :: takes).
  clear Hcd. split_and!.
  - reflexivity.
  - reflexivity.
  - reflexivity.
  - reflexivity.
  - simpl. ring.
  - exact Hds.
  - rewrite !fmap_cons. f_equal. apply zip_with_clip_durations.
    simpl. rewrite cumsum_from_length, length_fmap. apply Nat.le_succ_diag_r.
  - rewrite Hvd. simpl. ring.
Qed.

(** C8, as the code has it: adding the narration changes no clip at all,
    the last scene included; start times and durations stay as they were.
    Only the length of the whole video changes, and only when the audio
    is longer than the video, title card included: it becomes the length
    of the audio. *)
Theorem add_narration_keeps_clips (video : Video) (audio_file : option Q) :
  clips (add_narration video audio_file) = clips video
  /\ (audio_file = None -> add_narration video audio_file = video)
  /\ (forall a, audio_file = Some a ->
        (video_duration video < a ->
         video_duration (add_narration video audio_file) = a)
        /\ (a <= video_duration video ->
            video_duration (add_narration video audio_file) = video_duration video)).
Proof.
  split_and!.
  - destruct audio_file as [a |]; [| reflexivity]. simpl.
    by destruct (Py.Qltb (video_duration video) a).
  - by intros ->.
  - intros a ->. simpl. unfold Py.Qltb.
    destruct (Qle_bool a (video_duration video)) eqn:E; simpl.
    + split; [| done]. intros Hlt. apply Qle_bool_iff in E.
      exfalso. by apply (Qlt_not_le _ _ Hlt).
    + split; [done |]. intros Hle. apply Qle_bool_iff in Hle. congruence.
Qed.

Lemma pipeline_scene_duration (img : string) :
  scene_duration {[ "image" := PyStr img; "duration" := PyNum 5 ]} = Some 5.
Proof.
  unfold scene_duration.
  rewrite lookup_insert_ne by done. by rewrite lookup_singleton_eq.
Qed.

Lemma total_replicate (n : nat) (d : Q) :
  total (replicate n d) == inject_Z (Z.of_nat n) * d.
Proof.
  induction n as [| n IH].
  - simpl. ring.
  - cbn [replicate total foldr]. fold (total (replicate n d)).
    rewrite IH, Nat2Z.inj_succ, <- Z.add_1_r, inject_Z_plus. ring.
Qed.

(** C1, as the code has it: the durations do not come from the audio.
    There is one scene for each of the first 20 pages, each of them 5
    seconds long, which is above the floor of 1.5 seconds; together they
    last 5 seconds times their number, whatever the audio lasts. *)
Theorem pipeline_scenes_durations (images : list string) :
  exists ds : list Q,
    scene_durations (pipeline_scenes images) = Some ds
    /\ length ds = Nat.min 20 (length images)
    /\ Forall (fun d => d = 5 /\ 3 # 2 <= d) ds
    /\ total ds == 5 * inject_Z (Z.of_nat (length ds)).
Proof.
  exists (replicate (Nat.min 20 (length images)) 5). split_and!.
  - unfold pipeline_scenes, scene_durations.
    rewrite <- length_take. induction (take 20 images) as [| img l IH]; [done |].
    rewrite fmap_cons. cbn [mapM]. rewrite pipeline_scene_duration. simpl.
    by rewrite IH.
  - apply length_replicate.
  - apply Forall_replicate. split; [done | discriminate].
  - rewrite total_replicate, length_replicate. ring.
Qed.

End TimelineFacts.

Lemma concatenated_title_card_two_scenes :
  exists video : VideoGenerator.Video,
    Samples.two_scenes <> []
    /\ @VideoGenerator.concatenated Samples.toy_lib Samples.thumbnailer
         Samples.two_scenes "Recap" = Some video
    /\ exists (card first : VideoGenerator.Clip) (rest : list VideoGenerator.Clip)
              (ds : list Q),
         VideoGenerator.clips video = card :: first :: rest
         /\ VideoGenerator.source card = VideoGenerator.TitleCard "Recap" (16, 9)
         /\ VideoGenerator.start card = 0%Q
         /\ VideoGenerator.clip_duration card = 3%Q
         /\ (VideoGenerator.start first == 3)%Q
         /\ VideoGenerator.scene_durations Samples.two_scenes = Some ds
         /\ VideoGenerator.clip_duration <$> (first :: rest) = ds
         /\ (VideoGenerator.video_duration video == 3 + VideoGenerator.total ds)%Q.
Proof.
  eexists. split; [discriminate |]. split; [vm_compute; reflexivity |].
  apply (@concatenated_title_card Samples.toy_lib Samples.thumbnailer
           Samples.two_scenes "Recap");
    [discriminate | vm_compute; reflexivity].
Defined.

(** One page and 30 seconds of narration: the floor would fit, but the
    only scene lasts 5 seconds, 25 seconds short of the audio; in the
    assembled video the title card and the scene take 8 of the 30 seconds. *)
Lemma pipeline_scenes_one_page :
  VideoGenerator.scene_durations (VideoGenerator.pipeline_scenes ["page_0000.png"])
  = Some [5%Q]
  /\ (1 * (3 # 2) <= 30)%Q
  /\ (Qabs (VideoGenerator.total [5%Q] - 30) == 25)%Q
  /\ (fun video => (VideoGenerator.clip_duration <$> VideoGenerator.clips video,
                    VideoGenerator.video_duration video))
     <$> @VideoGenerator.create_manga_recap Samples.toy_lib Samples.thumbnailer
           (VideoGenerator.pipeline_scenes ["page_0000.png"]) (Some 30%Q) "Recap"
     = Some ([3%Q; 5%Q], 30%Q).
Proof. split_and!; first [discriminate | vm_compute; reflexivity]. Qed.

(** Two scenes of 14 seconds and an audio of 30 seconds: the video already
    lasts 31 seconds with its title card, so nothing is extended, and the
    last scene still lasts 14 seconds.  With an audio of 40 seconds the
    video is set to 40 seconds and the last scene still lasts 14. *)
Lemma create_manga_recap_shortfall :
  (fun video => (VideoGenerator.clip_duration <$> VideoGenerator.clips video,
                 VideoGenerator.video_duration video))
  <$> @VideoGenerator.create_manga_recap Samples.toy_lib Samples.thumbnailer
        Samples.two_scenes (Some 30%Q) "Recap"
  = Some ([3%Q; 14%Q; 14%Q], 31%Q)
  /\ (fun video => (VideoGenerator.clip_duration <$> VideoGenerator.clips video,
                    VideoGenerator.video_duration video))
     <$> @VideoGenerator.create_manga_recap Samples.toy_lib Samples.thumbnailer
           Samples.two_scenes (Some 40%Q) "Recap"
     = Some ([3%Q; 14%Q; 14%Q], 40%Q).
Proof. split; vm_compute; reflexivity. Qed.

(** * Further properties *)

(** ** Page extraction *)

Section PdfExtractorFacts.
Import Stdlib.Strings.Ascii.
Import PdfExtractor.

Lemma iter_zero_digits (k : nat) (d : Decimal.uint) :
  Nat.iter k (String "0"%char) (DecimalString.NilEmpty.string_of_uint d)
  = DecimalString.NilEmpty.string_of_uint (Nat.iter k Decimal.D0 d).
Proof. induction k as [| k IH]; [reflexivity |]. simpl. by rewrite IH. Qed.

Lemma of_uint_leading_zeros (k : nat) (d : Decimal.uint) :
  Nat.of_uint (Nat.iter k Decimal.D0 d) = Nat.of_uint d.
Proof. induction k as [| k IH]; [reflexivity |]. simpl. exact IH. Qed.

(** Reading the digits back gives the page number. *)
Lemma format_04d_read_back (n : nat) :
  Nat.of_uint <$> DecimalString.NilEmpty.uint_of_string (format_04d n) = Some n.
Proof.
  unfold format_04d, zfill, decimal.
  rewrite iter_zero_digits, DecimalString.NilEmpty.usu. simpl.
  by rewrite of_uint_leading_zeros, DecimalNat.Unsigned.of_to.
Qed.

Lemma format_04d_inj (n m : nat) : format_04d n = format_04d m -> n = m.
Proof.
  intros Heq. pose proof (format_04d_read_back n) as Hn.
  rewrite Heq, format_04d_read_back in Hn. by injection Hn.
Qed.

Lemma string_app_length (s t : string) :
  String.length (s +:+ t) = (String.length s + String.length t)%nat.
Proof. induction s as [| c s IH]; simpl; [done | by rewrite IH]. Qed.

Lemma string_app_inv_tail (s1 s2 t : string) : s1 +:+ t = s2 +:+ t -> s1 = s2.
Proof.
  intros Heq.
  assert (String.length s1 = String.length s2) as Hlen.
  { apply (f_equal String.length) in Heq. rewrite !string_app_length in Heq. lia. }
  revert s2 Heq Hlen. induction s1 as [| c s1 IH]; intros [| c2 s2] Heq Hlen;
    simpl in *; try done.
  injection Heq as -> Heq. f_equal. apply IH; [done | lia].
Qed.

Lemma page_path_inj (output_dir : string) (n m : nat) :
  page_path output_dir n = page_path output_dir m -> n = m.
Proof.
  unfold page_path, path_join. simpl.
  destruct (_ || _); intros Heq.
  - apply String.app_inj in Heq. injection Heq as Heq.
    apply (string_app_inv_tail (format_04d n) (format_04d m)) in Heq.
    by apply format_04d_inj.
  - apply String.app_inj in Heq. injection Heq as Heq.
    apply (string_app_inv_tail (format_04d n) (format_04d m)) in Heq.
    by apply format_04d_inj.
Qed.

Lemma zfill_length (k : nat) (s : string) :
  String.length (Nat.iter k (String "0"%char) s) = (k + String.length s)%nat.
Proof. induction k as [| k IH]; [done |]. simpl. by rewrite IH. Qed.

Lemma decimal_short : forallb (fun n => String.length (decimal n) <=? 4)%nat
                        (seq 0 (10 ^ 4)) = true.
Proof. vm_compute. reflexivity. Qed.

(** X3: the digits in a page's file name read back as the page number; the
    number takes at least four characters, and exactly four for the first
    ten thousand pages. *)
Theorem page_number_read_back (n : nat) :
  Nat.of_uint <$> DecimalString.NilEmpty.uint_of_string (format_04d n) = Some n
  /\ (4 <= String.length (format_04d n))%nat
  /\ ((n < 10 ^ 4)%nat -> String.length (format_04d n) = 4%nat).
Proof.
  split; [apply format_04d_read_back |].
  unfold format_04d, zfill. rewrite zfill_length. split; [lia |].
  intros Hn. pose proof decimal_short as Hall.
  rewrite forallb_forall in Hall.
  specialize (Hall n ltac:(apply in_seq; lia)).
  apply Nat.leb_le in Hall. lia.
Qed.

Context {Fs Pixmap : Type} `{!Disk Fs Pixmap}.

Lemma extract_loop_app (doc : Document Pixmap) (output_dir : string) (dpi : Z)
    (st : Fs * list string) (l1 l2 : list nat) :
  extract_loop doc output_dir dpi st (l1 ++ l2)
  = st' ← extract_loop doc output_dir dpi st l1;
    extract_loop doc output_dir dpi st' l2.
Proof.
  revert st. induction l1 as [| k l1 IH]; intros st; [done |].
  cbn [app extract_loop].
  destruct (extract_step doc output_dir dpi st k) as [st' |]; [apply IH | done].
Qed.

Lemma extract_step_inv (doc : Document Pixmap) (output_dir : string) (dpi : Z)
    (fs : Fs) (images : list string) (k : nat) (fs' : Fs) (paths : list string) :
  extract_step doc output_dir dpi (fs, images) k = Some (fs', paths) ->
  exists pix : Pixmap,
    get_pixmap doc k (inject_Z dpi / 72)%Q = Some pix
    /\ save pix (page_path output_dir k) fs = Some fs'
    /\ paths = images ++ [page_path output_dir k].
Proof.
  unfold extract_step. intros Hstep.
  destruct (get_pixmap doc k _) as [pix |]; [| done]. cbn in Hstep.
  destruct (save pix _ fs) as [fs1 |] eqn:Hsave; [| done]. cbn in Hstep.
  injection Hstep as <- <-. by exists pix.
Qed.

(** What a loop that ran to its end has done: the paths collected, the
    pages rendered, and each page saved over the file system that the
    pages before it left. *)
Lemma extract_loop_inv (doc : Document Pixmap) (output_dir : string) (dpi : Z)
    (fs : Fs) (images : list string) (l : list nat) (fs' : Fs)
    (paths : list string) :
  extract_loop doc output_dir dpi (fs, images) l = Some (fs', paths) ->
  paths = images ++ (page_path output_dir <$> l)
  /\ Forall (fun k => is_Some (get_pixmap doc k (inject_Z dpi / 72)%Q)) l.
Proof.
  revert fs images. induction l as [| k l IH]; intros fs images Hloop.
  - injection Hloop as <- <-. by rewrite app_nil_r.
  - cbn [extract_loop] in Hloop.
    destruct (extract_step doc output_dir dpi (fs, images) k) as [[fs1 images1] |]
      eqn:Hstep; [| done].
    cbn in Hloop. apply IH in Hloop as [-> Hall].
    apply extract_step_inv in Hstep as (pix & Hpix & _ & ->).
    split; [by rewrite <- app_assoc | constructor; [by exists pix | done]].
Qed.

Lemma extract_loop_keeps (doc : Document Pixmap) (output_dir : string) (dpi : Z)
    (fs : Fs) (images : list string) (l : list nat) (fs' : Fs)
    (paths : list string) (j : nat) :
  keeps_other_pages ->
  extract_loop doc output_dir dpi (fs, images) l = Some (fs', paths) ->
  j ∉ l ->
  read_file (page_path output_dir j) fs' = read_file (page_path output_dir j) fs.
Proof.
  intros Hkeeps. revert fs images. induction l as [| k l IH]; intros fs images Hloop Hj.
  - by injection Hloop as <- <-.
  - cbn [extract_loop] in Hloop.
    destruct (extract_step doc output_dir dpi (fs, images) k) as [[fs1 images1] |]
      eqn:Hstep; [| done].
    cbn in Hloop. apply not_elem_of_cons in Hj as [Hjk Hj].
    rewrite (IH _ _ Hloop Hj).
    apply extract_step_inv in Hstep as (pix & _ & Hsave & _).
    apply (Hkeeps output_dir k j pix fs fs1); [| done].
    intros Heq. by apply page_path_inj in Heq.
Qed.

Lemma extract_loop_files (doc : Document Pixmap) (output_dir : string) (dpi : Z)
    (fs : Fs) (images : list string) (l : list nat) (fs' : Fs)
    (paths : list string) :
  reads_back -> keeps_other_pages -> NoDup l ->
  extract_loop doc output_dir dpi (fs, images) l = Some (fs', paths) ->
  Forall (fun k => exists pix : Pixmap,
            get_pixmap doc k (inject_Z dpi / 72)%Q = Some pix
            /\ read_file (page_path output_dir k) fs' = Some pix) l.
Proof.
  intros Hback Hkeeps. revert fs images.
  induction l as [| k l IH]; intros fs images Hnd Hloop; [constructor |].
  apply NoDup_cons in Hnd as [Hk Hnd]. cbn [extract_loop] in Hloop.
  destruct (extract_step doc output_dir dpi (fs, images) k) as [[fs1 images1] |]
    eqn:Hstep; [| done].
  cbn in Hloop. constructor; [| by apply (IH fs1 images1)].
  apply extract_step_inv in Hstep as (pix & Hpix & Hsave & _).
  exists pix. split; [done |].
  rewrite (extract_loop_keeps _ _ _ _ _ _ _ _ k Hkeeps Hloop Hk).
  by apply (Hback pix _ fs).
Qed.

Lemma extract_pages_inv (pdf_path output_dir : string) (dpi : Z) (fs fs' : Fs)
    (paths : list string) :
  extract_pages_from_pdf pdf_path output_dir dpi fs = Some (fs', paths) ->
  exists (fs0 : Fs) (doc : Document Pixmap),
    makedirs output_dir fs = Some fs0
    /\ fitz_open pdf_path fs0 = Some doc
    /\ extract_loop doc output_dir dpi (fs0, []) (seq 0 (page_count doc))
       = Some (fs', paths).
Proof.
  unfold extract_pages_from_pdf. intros Hrun.
  destruct (makedirs output_dir fs) as [fs0 |]; [| done]. cbn in Hrun.
  destruct (fitz_open pdf_path fs0) as [doc |] eqn:Hopen; [| done]. cbn in Hrun.
  by exists fs0, doc.
Qed.

Lemma extract_pages_paths_spec (pdf_path output_dir : string) (dpi : Z)
    (fs fs' : Fs) (paths : list string) :
  extract_pages_from_pdf pdf_path output_dir dpi fs = Some (fs', paths) ->
  exists (fs0 : Fs) (doc : Document Pixmap),
    makedirs output_dir fs = Some fs0
    /\ fitz_open pdf_path fs0 = Some doc
    /\ paths = page_path output_dir <$> seq 0 (page_count doc).
Proof.
  intros Hrun. apply extract_pages_inv in Hrun as (fs0 & doc & Hmk & Hopen & Hloop).
  exists fs0, doc. split_and!; [done | done |].
  by apply extract_loop_inv in Hloop as [-> _].
Qed.

(** X1: when the extraction returns, it returns one path per page of the
    document, in page order, and no two pages share a path. *)
Theorem extract_pages_paths (pdf_path output_dir : string) (dpi : Z)
    (fs fs' : Fs) (paths : list string) :
  extract_pages_from_pdf pdf_path output_dir dpi fs = Some (fs', paths) ->
  exists (fs0 : Fs) (doc : Document Pixmap),
    makedirs output_dir fs = Some fs0
    /\ fitz_open pdf_path fs0 = Some doc
    /\ length paths = page_count doc
    /\ NoDup paths
    /\ (forall i : nat, (i < page_count doc)%nat ->
          paths !! i = Some (page_path output_dir i)).
Proof.
  intros Hrun.
  apply extract_pages_paths_spec in Hrun as (fs0 & doc & Hmk & Hopen & ->).
  exists fs0, doc. split_and!; [done | done | | |].
  - by rewrite length_fmap, length_seq.
  - apply NoDup_fmap_2; [| apply NoDup_seq].
    intros a b. apply page_path_inj.
  - intros i Hi. rewrite list_lookup_fmap, lookup_seq_lt by done. reflexivity.
Qed.

Lemma extract_pages_files_spec (pdf_path output_dir : string) (dpi : Z)
    (fs fs' : Fs) (paths : list string) :
  reads_back -> keeps_other_pages ->
  extract_pages_from_pdf pdf_path output_dir dpi fs = Some (fs', paths) ->
  exists (fs0 : Fs) (doc : Document Pixmap),
    makedirs output_dir fs = Some fs0
    /\ fitz_open pdf_path fs0 = Some doc
    /\ (forall i : nat, (i < page_count doc)%nat ->
          exists pix : Pixmap,
            get_pixmap doc i (inject_Z dpi / 72)%Q = Some pix
            /\ read_file (page_path output_dir i) fs' = Some pix).
Proof.
  intros Hback Hkeeps Hrun.
  apply extract_pages_inv in Hrun as (fs0 & doc & Hmk & Hopen & Hloop).
  exists fs0, doc. split_and!; [done | done |].
  pose proof (extract_loop_files _ _ _ _ _ _ _ _ Hback Hkeeps
                (NoDup_seq 0 (page_count doc)) Hloop) as Hall.
  rewrite Forall_forall in Hall.
  intros i Hi. apply Hall, elem_of_seq. lia.
Qed.

(** X2: on a disk where a saved file reads back and where saving one page
    file does not reach the page files of other names, the file of every
    page holds, when the extraction returns, that page rendered at
    [dpi / 72]: no page has been overwritten by a later one. *)
Theorem extract_pages_files (pdf_path output_dir : string) (dpi : Z)
    (fs fs' : Fs) (paths : list string) :
  reads_back -> keeps_other_pages ->
  extract_pages_from_pdf pdf_path output_dir dpi fs = Some (fs', paths) ->
  exists (fs0 : Fs) (doc : Document Pixmap),
    makedirs output_dir fs = Some fs0
    /\ fitz_open pdf_path fs0 = Some doc
    /\ (forall i : nat, (i < page_count doc)%nat ->
          exists pix : Pixmap,
            get_pixmap doc i (inject_Z dpi / 72)%Q = Some pix
            /\ read_file (page_path output_dir i) fs' = Some pix).
Proof. apply extract_pages_files_spec. Qed.

(** A page that does not render stops the extraction, wherever it is in
    the document. *)
Lemma extract_pages_page_fails (pdf_path output_dir : string) (dpi : Z)
    (fs fs0 : Fs) (doc : Document Pixmap) (i : nat) :
  makedirs output_dir fs = Some fs0 ->
  fitz_open pdf_path fs0 = Some doc ->
  (i < page_count doc)%nat ->
  get_pixmap doc i (inject_Z dpi / 72)%Q = None ->
  extract_pages_from_pdf pdf_path output_dir dpi fs = None.
Proof.
  intros Hmk Hopen Hi Hnone.
  destruct (extract_pages_from_pdf pdf_path output_dir dpi fs) as [[fs' paths] |]
    eqn:Hrun; [| done].
  apply extract_pages_inv in Hrun as (fs0' & doc' & Hmk' & Hopen' & Hloop).
  rewrite Hmk in Hmk'. injection Hmk' as <-.
  rewrite Hopen in Hopen'. injection Hopen' as <-.
  apply extract_loop_inv in Hloop as [_ Hall]. rewrite Forall_forall in Hall.
  destruct (Hall i) as [pix Hpix]; [apply elem_of_seq; lia |]. congruence.
Qed.

End PdfExtractorFacts.

(** ** Slices and crops *)

Section SliceFacts.
Context {A : Type}.

Lemma slice_inside (l : list A) (a n : Z) :
  0 <= a -> 0 <= n -> a + n <= Z.of_nat (length l) ->
  Py.slice l a (a + n) = take (Z.to_nat n) (drop (Z.to_nat a) l).
Proof.
  intros Ha Hn Hlen. unfold Py.slice, Py.slice_bound.
  destruct (a <? 0) eqn:E1; [lia |]. destruct (a + n <? 0) eqn:E2; [lia |].
  rewrite !Z.min_l by lia. f_equal. lia.
Qed.

Lemma slice_inside_length (l : list A) (a n : Z) :
  0 <= a -> 0 <= n -> a + n <= Z.of_nat (length l) ->
  Z.of_nat (length (Py.slice l a (a + n))) = n.
Proof.
  intros Ha Hn Hlen. rewrite slice_inside by done.
  rewrite length_take, length_drop. lia.
Qed.

Lemma slice_inside_lookup (l : list A) (a n i : Z) :
  0 <= a -> 0 <= n -> a + n <= Z.of_nat (length l) -> 0 <= i < n ->
  Py.slice l a (a + n) !! Z.to_nat i = l !! Z.to_nat (a + i).
Proof.
  intros Ha Hn Hlen Hi. rewrite slice_inside by done.
  rewrite lookup_take_lt by lia. rewrite lookup_drop. f_equal. lia.
Qed.
End SliceFacts.

(** Cropping a box that lies within the image gives exactly the pixels of
    the box. *)
Lemma crop_inside (img : Image) (H W y x ch cw : Z) :
  rectangular H W img ->
  0 <= y -> 0 <= ch -> y + ch <= H -> 0 <= x -> 0 <= cw -> x + cw <= W ->
  rectangular ch cw (crop img y (y + ch) x (x + cw))
  /\ (forall i j : Z, 0 <= i < ch -> 0 <= j < cw ->
        pixel (crop img y (y + ch) x (x + cw)) i j = pixel img (y + i) (x + j)).
Proof.
  unfold rectangular, Image in *.
  intros [HH HW] Hy Hch Hyh Hx Hcw Hxw. unfold crop.
  assert (Forall (fun row : list Pixel => Z.of_nat (length row) = W)
            (Py.slice img y (y + ch))) as Hrows.
  { rewrite slice_inside by lia. apply Forall_take, Forall_drop, HW. }
  split; [split |].
  - rewrite length_fmap. apply slice_inside_length; lia.
  - apply Forall_fmap. eapply Forall_impl; [exact Hrows |].
    intros row Hrow. simpl in *. apply slice_inside_length; lia.
  - intros i j Hi Hj. unfold pixel, Image.
    rewrite list_lookup_fmap, slice_inside_lookup by lia.
    destruct (img !! Z.to_nat (y + i)) as [row |] eqn:Erow; [| done]. simpl.
    rewrite Forall_forall in HW.
    assert (Z.of_nat (length row) = W) as Hlen.
    { apply HW. by eapply list_elem_of_lookup_2. }
    apply slice_inside_lookup; lia.
Qed.

(** ** The first and the last frame of a clip *)

Section FirstFrame.
Import PyFloat Renderer.

Lemma of_int_one : of_int 1 = Some one.
Proof. reflexivity. Qed.

Lemma progress_at_start (c : Closure) (progress : float) :
  progress_at c zero = Some progress ->
  progress = S754_nan \/ exists s : bool, progress = S754_zero s.
Proof.
  unfold progress_at, div, zero.
  destruct (duration c) as [sd | sd | | sd md ed]; cbn; intros [= <-];
    by eauto.
Qed.

(** With no progress made, the zoom is [zoom_start], or it is no zoom that
    a length can be divided by. *)
Lemma zoom_of_no_progress (c : Closure) (s : bool) :
  zoom_of c (S754_zero s) = zoom_start c
  \/ zoom_of c (S754_zero s) = S754_nan
  \/ is_zero (zoom_of c (S754_zero s)) = true.
Proof.
  unfold zoom_of.
  destruct (sub (zoom_end c) (zoom_start c)) as [sd | sd | | sd md ed];
    destruct (zoom_start c) as [sz | sz | | sz mz ez]; cbn; try by eauto.
  all: destruct sz, (xorb sd s); cbn; by eauto.
Qed.

Lemma crop_side_nan (side : Z) : crop_side side S754_nan = None.
Proof.
  unfold crop_side. destruct (of_int side) as [r |]; [| done]. cbn.
  by destruct r.
Qed.

Lemma crop_side_zero (side : Z) (z : float) :
  is_zero z = true -> crop_side side z = None.
Proof.
  intros Hz. unfold crop_side, div. rewrite Hz.
  by destruct (of_int side).
Qed.

Lemma pan_offset_no_progress (n : Z) (s : bool) (x : Z) :
  pan_offset n (S754_zero s) = Some x -> x = 0.
Proof.
  unfold pan_offset. destruct (of_int n) as [f |]; [| done]. cbn.
  destruct f; cbn; congruence.
Qed.

(** X14: the first frame shows the window of [zoom_start].  Whenever the
    frame function gets as far as a window at [t = 0.0], the zoom it has
    computed is exactly [zoom_start], the window has the size
    [int(resolution / zoom_start)] and is centred vertically, and a clip
    that pans to the right starts at the left edge. *)
Theorem window_at_start (res : Z * Z) (c : Closure) (h w : Z)
    (x_offset y_offset crop_w crop_h : Z) :
  window res c h w zero = Some (x_offset, y_offset, crop_w, crop_h) ->
  zoom_at c zero = Some (zoom_start c)
  /\ crop_side res.2 (zoom_start c) = Some crop_h
  /\ crop_side res.1 (zoom_start c) = Some crop_w
  /\ y_offset = (h - crop_h) / 2
  /\ (pan_direction c = "right" -> x_offset = 0).
Proof.
  unfold window, zoom_at. intros Hwin.
  destruct (progress_at c zero) as [progress |] eqn:Hp; [| done].
  cbn in Hwin |- *.
  apply progress_at_start in Hp as [-> | [s ->]].
  { assert (zoom_of c S754_nan = S754_nan) as Hnan.
    { unfold zoom_of. destruct (sub _ _), (zoom_start c); reflexivity. }
    rewrite Hnan, !crop_side_nan in Hwin. by cbn in Hwin. }
  destruct (zoom_of_no_progress c s) as [Hz | [Hz | Hz]].
  - rewrite Hz in *.
    destruct (crop_side res.2 (zoom_start c)) as [ch |]; [| done]. cbn in Hwin.
    destruct (crop_side res.1 (zoom_start c)) as [cw |]; [| done]. cbn in Hwin.
    destruct (String.eqb (pan_direction c) "right") eqn:Hdir.
    + destruct (pan_offset (w - cw) (S754_zero s)) as [x |] eqn:Hx; [| done].
      cbn in Hwin. injection Hwin as <- <- <- <-.
      split_and!; try done. intros _. by apply pan_offset_no_progress in Hx.
    + assert (pan_direction c <> "right") as Hne.
      { intros Heq. by rewrite Heq in Hdir. }
      destruct (String.eqb (pan_direction c) "left").
      * destruct (pan_offset _ _) as [x |]; [| done].
        cbn in Hwin. by injection Hwin as <- <- <- <-.
      * by injection Hwin as <- <- <- <-.
  - rewrite Hz, !crop_side_nan in Hwin. by cbn in Hwin.
  - rewrite !(crop_side_zero _ _ Hz) in Hwin. by cbn in Hwin.
Qed.

(** The last frame need not show the window of [zoom_end]: zooming out
    from 4.0 to 1.2, the zoom reached at [t = duration] is the float after
    1.2, and the window is 1599 by 899 where [zoom_end] gives 1600 by
    900. *)
Lemma window_at_end_overshoots :
  let c := mkClosure (ratio 5 1) (ratio 4 1) (ratio 12 10) "right" in
  zoom_at c (duration c) = Some (S754_finite false 5404319552844596 (-52))
  /\ zoom_end c = S754_finite false 5404319552844595 (-52)
  /\ window (1920, 1080) c 1296 2304 (duration c) = Some (705, 198, 1599, 899)
  /\ crop_side 1920 (zoom_end c) = Some 1600
  /\ crop_side 1080 (zoom_end c) = Some 900.
Proof. cbn zeta. split_and!; vm_compute; reflexivity. Qed.

End FirstFrame.

(** ** More on panel detection *)

Section PanelDetectorMore.
Import PanelDetector.

Lemma minimum_le (d : Z) (l : list Z) : Cv2.minimum d l <= d.
Proof. induction l as [| a l IH]; simpl; lia. Qed.

Lemma maximum_ge (d : Z) (l : list Z) : d <= Cv2.maximum d l.
Proof. induction l as [| a l IH]; simpl; lia. Qed.

Lemma minimum_lower (d : Z) (l : list Z) (a : Z) :
  a ∈ l -> Cv2.minimum d l <= a.
Proof.
  induction l as [| b l IH]; intros Hin; [by apply elem_of_nil in Hin |].
  apply elem_of_cons in Hin as [-> | Hin]; simpl; [lia |].
  specialize (IH Hin). lia.
Qed.

Lemma maximum_upper (d : Z) (l : list Z) (a : Z) :
  a ∈ l -> a <= Cv2.maximum d l.
Proof.
  induction l as [| b l IH]; intros Hin; [by apply elem_of_nil in Hin |].
  apply elem_of_cons in Hin as [-> | Hin]; simpl; [lia |].
  specialize (IH Hin). lia.
Qed.

Lemma minimum_bound (lo d : Z) (l : list Z) :
  lo <= d -> Forall (fun a => lo <= a) l -> lo <= Cv2.minimum d l.
Proof. intros Hd Hall. induction Hall; simpl; lia. Qed.

Lemma maximum_bound (hi d : Z) (l : list Z) :
  d < hi -> Forall (fun a => a < hi) l -> Cv2.maximum d l < hi.
Proof. intros Hd Hall. induction Hall; simpl; lia. Qed.

(** The bounding rectangle of a contour with a vertex has a positive width
    and height. *)
Lemma boundingRect_positive (c : Cv2.Contour) :
  c <> [] ->
  let '(_, _, w, h) := Cv2.boundingRect c in 1 <= w /\ 1 <= h.
Proof.
  destruct c as [| p c]; [done |]. intros _. unfold Cv2.boundingRect.
  pose proof (minimum_le p.1 (fst <$> p :: c)).
  pose proof (maximum_ge p.1 (fst <$> p :: c)).
  pose proof (minimum_le p.2 (snd <$> p :: c)).
  pose proof (maximum_ge p.2 (snd <$> p :: c)).
  lia.
Qed.

Lemma survives_nonempty (min_area : Z) (c : Cv2.Contour) :
  0 < min_area -> survives min_area c = true -> c <> [].
Proof.
  intros Hmin Hs ->. unfold survives, Py.Qltb, Cv2.contourArea in Hs. simpl in Hs.
  rewrite negb_involutive in Hs. apply Qle_bool_iff in Hs.
  unfold Qle in Hs. simpl in Hs. lia.
Qed.

(** Every panel of the result is the panel of a contour that passed the
    area test. *)
Lemma detect_panels_elem (img : Image) (contours : list Cv2.Contour)
    (min_area : Z) (p : Panel) :
  p ∈ detect_panels img contours min_area ->
  exists c, c ∈ contours /\ survives min_area c = true /\ p = panel_of img c.
Proof.
  unfold detect_panels. rewrite sort_perm, detected_spec.
  intros Hin. apply list_elem_of_fmap in Hin as (c & -> & Hc).
  apply list_elem_of_filter in Hc as [Hs Hc].
  exists c. split_and!; [done | | done]. by destruct (survives min_area c).
Qed.

(** X7: with a positive minimum area, every panel returned has a width and
    a height of at least one pixel. *)
Theorem detect_panels_positive_size (img : Image) (contours : list Cv2.Contour)
    (min_area : Z) :
  0 < min_area ->
  Forall (fun p => 1 <= width p /\ 1 <= height p)
    (detect_panels img contours min_area).
Proof.
  intros Hmin. apply Forall_forall. intros p Hin.
  apply detect_panels_elem in Hin as (c & _ & Hs & ->).
  pose proof (boundingRect_positive c (survives_nonempty _ _ Hmin Hs)) as Hpos.
  unfold panel_of. by destruct (Cv2.boundingRect c) as [[[x0 y0] w] h].
Qed.

Lemma boundingRect_on_page (h w : Z) (c : Cv2.Contour) :
  c <> [] -> on_page h w c ->
  let '(x0, y0, bw, bh) := Cv2.boundingRect c in
  0 <= x0 /\ 0 <= y0 /\ 1 <= bw /\ 1 <= bh /\ x0 + bw <= w /\ y0 + bh <= h.
Proof.
  intros Hne Hon. pose proof (boundingRect_positive c Hne) as Hpos.
  destruct c as [| p c]; [done |]. unfold Cv2.boundingRect in *.
  assert (Forall (fun a => 0 <= a) (fst <$> p :: c)
          /\ Forall (fun a => a < w) (fst <$> p :: c)
          /\ Forall (fun a => 0 <= a) (snd <$> p :: c)
          /\ Forall (fun a => a < h) (snd <$> p :: c)) as (Hx0 & Hx1 & Hy0 & Hy1).
  { split_and!; apply Forall_fmap; eapply Forall_impl; try exact Hon;
      intros pt Hpt; simpl in *; lia. }
  apply Forall_cons in Hon as [Hp _].
  pose proof (minimum_bound 0 p.1 _ ltac:(lia) Hx0).
  pose proof (maximum_bound w p.1 _ ltac:(lia) Hx1).
  pose proof (minimum_bound 0 p.2 _ ltac:(lia) Hy0).
  pose proof (maximum_bound h p.2 _ ltac:(lia) Hy1).
  lia.
Qed.

(** X8: on a page of [h] rows and [w] columns whose contours lie on the
    page, every panel's box lies within the page and its image is exactly
    the pixels of the page inside the box. *)
Theorem detect_panels_image (img : Image) (h w : Z)
    (contours : list Cv2.Contour) (min_area : Z) :
  rectangular h w img ->
  0 < min_area ->
  Forall (on_page h w) contours ->
  Forall (fun p =>
            0 <= x p /\ 0 <= y p /\ x p + width p <= w /\ y p + height p <= h
            /\ rectangular (height p) (width p) (image p)
            /\ (forall i j : Z, 0 <= i < height p -> 0 <= j < width p ->
                  pixel (image p) i j = pixel img (y p + i) (x p + j)))
    (detect_panels img contours min_area).
Proof.
  intros Hrect Hmin Hon. apply Forall_forall. intros p Hin.
  apply detect_panels_elem in Hin as (c & Hc & Hs & ->).
  rewrite Forall_forall in Hon.
  pose proof (boundingRect_on_page h w c (survives_nonempty _ _ Hmin Hs)
                (Hon c Hc)) as Hbox.
  unfold panel_of. destruct (Cv2.boundingRect c) as [[[x0 y0] bw] bh]. simpl.
  destruct Hbox as (? & ? & ? & ? & ? & ?).
  split_and!; try lia; apply (crop_inside img h w y0 x0 bh bw); by try lia.
Qed.

Lemma StronglySorted_lookup {A : Type} (R : A -> A -> Prop) (l : list A)
    (i j : nat) (a b : A) :
  StronglySorted R l -> (i < j)%nat ->
  l !! i = Some a -> l !! j = Some b -> R a b.
Proof.
  intros Hs. revert i j. induction Hs as [| c l Hs IH Hall]; intros i j Hij Ha Hb.
  - discriminate.
  - destruct j as [| j]; [lia |]. destruct i as [| i]; simpl in *.
    + injection Ha as ->. rewrite Forall_forall in Hall.
      apply Hall. by eapply list_elem_of_lookup_2.
    + apply (IH i j); [lia | done | done].
Qed.

(** X9: the reading order holds between any two panels of the result, not
    only between neighbours. *)
Theorem detect_panels_order_all_pairs (img : Image) (contours : list Cv2.Contour)
    (min_area : Z) (i j : nat) (p q : Panel) :
  (i < j)%nat ->
  detect_panels img contours min_area !! i = Some p ->
  detect_panels img contours min_area !! j = Some q ->
  band p <= band q /\ (band p = band q -> x p >= x q).
Proof.
  intros Hij Hp Hq. unfold detect_panels in *.
  pose proof (sort_sorted sort_key (detected img contours min_area)) as Hs.
  apply Sorted_StronglySorted in Hs; [| intros a b c; apply key_le_trans].
  pose proof (StronglySorted_lookup _ _ i j p q Hs Hij Hp Hq) as Hle.
  unfold Py.key_le in Hle. apply tuple_lt_false in Hle.
  unfold sort_key, band in *. simpl in Hle. lia.
Qed.

Lemma Sorted_weaken {A : Type} (R R' : A -> A -> Prop) (l : list A) :
  (forall a b, R a b -> R' a b) -> Sorted R l -> Sorted R' l.
Proof.
  intros Himpl Hs. induction Hs as [| a l Hs IH Hhd]; constructor; [done |].
  destruct Hhd; constructor. by apply Himpl.
Qed.

(** X10: the reading order and the rule for ties leave no choice: a list
    that is in reading order and keeps the panels of each band and x in
    their detection order is the list that [detect_panels] returns. *)
Theorem detect_panels_unique (img : Image) (contours : list Cv2.Contour)
    (min_area : Z) (arranged : list Panel) :
  Sorted (fun p q => band p < band q \/ (band p = band q /\ x q <= x p)) arranged ->
  (forall b x0 : Z,
     filter (fun p => band p = b /\ x p = x0) arranged
     = filter (fun p => band p = b /\ x p = x0) (detected img contours min_area)) ->
  arranged = detect_panels img contours min_area.
Proof.
  intros Hs Hf. unfold detect_panels. apply sort_unique.
  - eapply Sorted_weaken; [| exact Hs].
    intros p q Hpq. unfold Py.key_le. apply tuple_lt_false.
    unfold sort_key, band in *. simpl. lia.
  - intros [b nx].
    rewrite (list_filter_iff _ (fun p => band p = b /\ x p = - nx)).
    + rewrite Hf. apply list_filter_iff.
      intros p. unfold sort_key, band.
      split; [intros [<- ?]; f_equal; lia | intros [= <- ?]; split; lia].
    + intros p. unfold sort_key, band.
      split; [intros [= <- ?]; split; lia | intros [<- ?]; f_equal; lia].
Qed.

End PanelDetectorMore.

(** ** More on the narration script *)

Section NarratorMore.
Import Narrator.

Lemma foldl_script_step_acc (panels : list (gmap string string))
    (acc : list string) :
  foldl script_step acc panels = acc ++ foldl script_step [] panels.
Proof.
  revert acc. induction panels as [| panel panels IH]; intros acc; simpl.
  - by rewrite app_nil_r.
  - rewrite IH, (IH (script_step [] panel)), app_assoc. f_equal.
    unfold script_step.
    destruct (truthy _); [done |]. destruct (truthy _); [done |].
    by rewrite app_nil_r.
Qed.

Lemma script_parts_app (a b : list (gmap string string)) :
  script_parts (a ++ b) = script_parts a ++ script_parts b.
Proof.
  unfold script_parts. rewrite foldl_app. apply foldl_script_step_acc.
Qed.

Lemma string_app_assoc (a b c : string) : (a +:+ b) +:+ c = a +:+ b +:+ c.
Proof.
  induction a as [| ch a IH]; [done |].
  change (String ch ((a +:+ b) +:+ c) = String ch (a +:+ b +:+ c)).
  by rewrite IH.
Qed.

Lemma join_app (sep : string) (l1 l2 : list string) :
  l1 <> [] -> l2 <> [] ->
  Py.join sep (l1 ++ l2) = Py.join sep l1 +:+ sep +:+ Py.join sep l2.
Proof.
  intros H1 H2. induction l1 as [| s l1 IH]; [done |].
  destruct l1 as [| s' l1].
  - simpl. by destruct l2.
  - specialize (IH ltac:(done)).
    change (Py.join sep ((s :: s' :: l1) ++ l2))
      with (s +:+ sep +:+ Py.join sep ((s' :: l1) ++ l2)).
    change (Py.join sep (s :: s' :: l1))
      with (s +:+ sep +:+ Py.join sep (s' :: l1)).
    rewrite IH. by rewrite !string_app_assoc.
Qed.

(** X11: the script of two lists of panels, one after the other, is made of
    the parts of the first followed by the parts of the second; when both
    have parts, it is the two scripts with one pause marker between them. *)
Theorem create_recap_script_app (a b : list (gmap string string)) :
  script_parts (a ++ b) = script_parts a ++ script_parts b
  /\ (script_parts a <> [] -> script_parts b <> [] ->
      create_recap_script (a ++ b)
      = create_recap_script a +:+ " ... " +:+ create_recap_script b)
  /\ (script_parts a = [] -> create_recap_script (a ++ b) = create_recap_script b)
  /\ (script_parts b = [] -> create_recap_script (a ++ b) = create_recap_script a).
Proof.
  unfold create_recap_script. rewrite script_parts_app. split_and!.
  - done.
  - apply join_app.
  - by intros ->.
  - intros ->. by rewrite app_nil_r.
Qed.

Lemma script_parts_text_only (texts : list string) :
  script_parts ((fun text => {[ "text" := text ]}) <$> texts)
  = filter (fun s => s <> "") texts.
Proof.
  induction texts as [| text texts IH]; [done |].
  rewrite fmap_cons.
  change (?p :: ?l) with ([p] ++ l) at 1. rewrite script_parts_app, IH, filter_cons.
  unfold script_parts. simpl. unfold script_step.
  rewrite lookup_singleton_eq, lookup_singleton_ne by done. simpl.
  destruct (truthy text) eqn:E.
  - apply truthy_spec in E. by rewrite decide_True.
  - apply truthy_false in E. by rewrite decide_False by (by intros ?).
Qed.

(** X12: the script that the pipeline builds inline is the script that
    [create_recap_script] gives for the same panels, each with its OCR text
    and no description. *)
Theorem pipeline_script_is_recap_script (ocr : PanelDetector.Panel -> string)
    (pages : list (list PanelDetector.Panel)) :
  pipeline_script ocr pages
  = create_recap_script ((fun panel => {[ "text" := ocr panel ]}) <$> concat pages).
Proof.
  unfold pipeline_script, create_recap_script.
  rewrite collect_text_spec, <- script_parts_text_only.
  by rewrite <- list_fmap_compose.
Qed.

End NarratorMore.

(** ** More on the assembled video *)

Section TimelineMore.
Import VideoGenerator.
Local Open Scope Q_scope.

(** Placed one after the other from [a] on, every clip starts where the
    one before it ends. *)
Lemma placed_contiguous (takes : list Take) (a : Q) :
  let placed := zip_with (fun c t => mkClip c.1 t c.2) takes
                  (a :: cumsum_from a (snd <$> takes)) in
  (forall c, placed !! 0%nat = Some c -> start c = a)
  /\ (forall (i : nat) (c c' : Clip),
        placed !! i = Some c -> placed !! S i = Some c' ->
        start c' = start c + clip_duration c)
  /\ (forall c, last placed = Some c ->
        last (a :: cumsum_from a (snd <$> takes)) = Some (start c + clip_duration c)).
Proof.
  cbn zeta. revert a. induction takes as [| [s d] takes IH]; intros a.
  - split_and!; done.
  - destruct (IH (a + d)) as (IHhead & IHnext & IHlast). clear IH.
    rewrite fmap_cons. cbn [cumsum_from zip_with fst snd]. split_and!.
    + by intros c [= <-].
    + intros [| i] c c' Hc Hc'.
      * injection Hc as <-. simpl. by rewrite (IHhead c' Hc').
      * by apply (IHnext i).
    + intros c Hc. rewrite last_cons in Hc. rewrite last_cons.
      match type of Hc with
      | match last ?l with _ => _ end = _ => destruct (last l) as [c0 |] eqn:El
      end.
      * injection Hc as <-. by rewrite (IHlast c0 eq_refl).
      * injection Hc as <-. destruct takes as [| t takes]; [done |].
        apply last_None in El. discriminate El.
Qed.

Context `{lib : ImageLib}.

Lemma create_manga_recap_inv (g : Generator) (scenes : list (gmap string PyVal))
    (audio_file : option Q) (title : string) (video : Video) :
  create_manga_recap g scenes audio_file title = Some video ->
  exists takes : list Take,
    scene_clips g 0 scenes = Some takes
    /\ video = add_narration
                 (concatenate_videoclips ((TitleCard title (resolution g), 3) :: takes))
                 audio_file.
Proof.
  unfold create_manga_recap, concatenated. intros Hv.
  destruct (scene_clips g 0 scenes) as [takes |]; [| done].
  exists takes. split; [done |]. simpl in Hv. by injection Hv as <-.
Qed.

Lemma add_narration_clips (video : Video) (audio_file : option Q) :
  clips (add_narration video audio_file) = clips video.
Proof.
  destruct audio_file as [a |]; [| done]. simpl.
  by destruct (Py.Qltb (video_duration video) a).
Qed.

Lemma add_narration_duration_ge (video : Video) (audio_file : option Q) :
  video_duration video <= video_duration (add_narration video audio_file).
Proof.
  destruct audio_file as [a |]; simpl; [| apply Qle_refl].
  unfold Py.Qltb. destruct (Qle_bool a (video_duration video)) eqn:E; simpl.
  - apply Qle_refl.
  - apply Qlt_le_weak, Qnot_le_lt. intros Hle.
    apply Qle_bool_iff in Hle. congruence.
Qed.

(** X18: in the assembled video the title card starts at 0, every clip
    starts exactly when the one before it ends, and the video does not end
    before its last clip. *)
Theorem create_manga_recap_timeline (g : Generator)
    (scenes : list (gmap string PyVal)) (audio_file : option Q) (title : string)
    (video : Video) :
  create_manga_recap g scenes audio_file title = Some video ->
  (exists card rest, clips video = card :: rest
                     /\ source card = TitleCard title (resolution g)
                     /\ start card = 0)
  /\ (forall (i : nat) (c c' : Clip),
        clips video !! i = Some c -> clips video !! S i = Some c' ->
        start c' = start c + clip_duration c)
  /\ (forall c, last (clips video) = Some c ->
        start c + clip_duration c <= video_duration video).
Proof.
  intros Hv. apply create_manga_recap_inv in Hv as (takes & _ & ->).
  rewrite add_narration_clips.
  set (all := (TitleCard title (resolution g), 3) :: takes).
  destruct (placed_contiguous all 0) as (Hhead & Hnext & Hlast).
  split_and!.
  - eexists _, _. split_and!; reflexivity.
  - exact Hnext.
  - intros c Hc. eapply Qle_trans; [| apply add_narration_duration_ge].
    unfold concatenate_videoclips, cumsum. cbn [video_duration].
    specialize (Hlast c Hc). unfold all in Hlast. rewrite fmap_cons in Hlast.
    unfold all. rewrite fmap_cons. cbn [snd] in *.
    rewrite Hlast. simpl. apply Qle_refl.
Qed.

Lemma create_manga_recap_duration_spec (g : Generator)
    (scenes : list (gmap string PyVal)) (audio_file : option Q) (title : string)
    (video : Video) :
  create_manga_recap g scenes audio_file title = Some video ->
  exists ds : list Q,
    scene_durations scenes = Some ds
    /\ length (clips video) = S (length scenes)
    /\ audio video = audio_file
    /\ match audio_file with
       | None => video_duration video == 3 + total ds
       | Some a =>
           (a <= 3 + total ds -> video_duration video == 3 + total ds)
           /\ (3 + total ds < a -> video_duration video == a)
       end.
Proof.
  intros Hv. apply create_manga_recap_inv in Hv as (takes & Ht & ->).
  pose proof (scene_clips_durations _ _ _ _ Ht) as Hds.
  exists (snd <$> takes). split; [done |].
  set (all := (TitleCard title (resolution g), 3) :: takes).
  destruct (concatenate_videoclips_durations all) as [Hcd Hvd].
  assert (video_duration (concatenate_videoclips all) == 3 + total (snd <$> takes))
    as Hsum by (rewrite Hvd; reflexivity).
  split_and!.
  - rewrite add_narration_clips.
    apply (f_equal length) in Hcd. rewrite !length_fmap in Hcd. rewrite Hcd.
    unfold all. simpl. f_equal.
    apply length_mapM in Hds. by rewrite length_fmap in Hds.
  - by destruct audio_file.
  - destruct audio_file as [a |]; [| exact Hsum].
    set (v0 := concatenate_videoclips all) in *. clearbody v0.
    unfold add_narration, Py.Qltb.
    destruct (Qle_bool a (video_duration v0)) eqn:E; simpl.
    + apply Qle_bool_iff in E. split; [intros _; exact Hsum |].
      intros Hlt. rewrite Hsum in E. exfalso. by apply (Qlt_not_le _ _ Hlt).
    + split; [| intros _; reflexivity].
      intros Hle. rewrite <- Hsum in Hle. apply Qle_bool_iff in Hle. congruence.
Qed.


(** X19: how long the assembled video is.  It has one clip more than there
    are scenes and carries the audio it was given; without audio, or with
    an audio that is not longer, it lasts 3 seconds plus the scene
    durations, and with a longer audio it lasts as long as the audio. *)
Theorem create_manga_recap_duration (g : Generator)
    (scenes : list (gmap string PyVal)) (audio_file : option Q) (title : string)
    (video : Video) :
  create_manga_recap g scenes audio_file title = Some video ->
  exists ds : list Q,
    scene_durations scenes = Some ds
    /\ length (clips video) = S (length scenes)
    /\ audio video = audio_file
    /\ match audio_file with
       | None => video_duration video == 3 + total ds
       | Some a =>
           (a <= 3 + total ds -> video_duration video == 3 + total ds)
           /\ (3 + total ds < a -> video_duration video == a)
       end.
Proof. apply create_manga_recap_duration_spec. Qed.

Lemma scene_clips_missing_image (g : Generator) (i : nat)
    (scenes : list (gmap string PyVal)) :
  Exists (fun scene => scene !! "image" = None) scenes ->
  scene_clips g i scenes = None.
Proof.
  intros Hex. revert i. induction Hex as [scene rest Hnone | scene rest _ IH];
    intros i; cbn [scene_clips].
  - unfold scene_image. by rewrite Hnone.
  - destruct (scene_image scene); [| done]. simpl.
    destruct (scene_duration scene); [| done]. simpl.
    destruct (pan_directions !! _); [| done]. simpl.
    destruct (create_ken_burns_clip _ _ _ _ _ _); [| done]. simpl.
    by rewrite IH.
Qed.

(** X20: a scene without an ['image'] key makes the whole assembly fail
    ([scene['image']] raises), wherever the scene is in the list and
    whatever the other scenes, the audio and the title are. *)
Theorem create_manga_recap_missing_image (g : Generator)
    (scenes : list (gmap string PyVal)) (audio_file : option Q) (title : string) :
  Exists (fun scene => scene !! "image" = None) scenes ->
  create_manga_recap g scenes audio_file title = None.
Proof.
  intros Hex. unfold create_manga_recap, concatenated.
  by rewrite (scene_clips_missing_image g 0 scenes Hex).
Qed.

End TimelineMore.

(** ** The complete pipeline *)

Section PipelineFacts.
Import PdfExtractor PanelDetector Narrator VideoGenerator Pipeline.
Local Open Scope Q_scope.
Context {Fs Pixmap : Type} `{!Disk Fs Pixmap}
        (decode load : Pixmap -> option Image)
        (find_contours : Image -> list Cv2.Contour)
        (ocr : Panel -> string)
        (tts : string -> option Q)
        (resize : Cv2.Interpolation -> Image -> Z * Z -> option Image).


Lemma mapM_fmap_ext {A B C : Type} (f : B -> option C) (g : A -> option C)
    (h : A -> B) (l : list A) :
  Forall (fun a => f (h a) = g a) l -> mapM f (h <$> l) = mapM g l.
Proof.
  induction 1 as [| a l Ha _ IH]; [done |].
  rewrite fmap_cons. cbn [mapM]. by rewrite Ha, IH.
Qed.

Lemma take_page_paths (n : nat) (output_dir : string) :
  take 20 (page_path output_dir <$> seq 0 n)
  = page_path output_dir <$> seq 0 (Nat.min 20 n).
Proof. by rewrite <- fmap_take, take_seq. Qed.



Lemma scene_clips_ext (lib1 lib2 : ImageLib) (g : Generator) (i : nat)
    (scenes : list (gmap string PyVal)) :
  @cv2_resize lib1 = @cv2_resize lib2 ->
  Forall (fun scene => forall path, scene_image scene = Some path ->
                                    @imread lib1 path = @imread lib2 path) scenes ->
  @scene_clips lib1 g i scenes = @scene_clips lib2 g i scenes.
Proof.
  intros Hresize Hall. revert i.
  induction Hall as [| scene rest Hscene _ IH]; intros i; [done |].
  cbn [scene_clips]. destruct (scene_image scene) as [path |]; [| done]. simpl.
  destruct (scene_duration scene) as [d |]; [| done]. simpl.
  destruct (pan_directions !! _) as [pan |]; [| done]. simpl.
  rewrite IH.
  assert (@create_ken_burns_clip lib1 g path d 1 (12 # 10) pan
          = @create_ken_burns_clip lib2 g path d 1 (12 # 10) pan) as ->; [| done].
  unfold create_ken_burns_clip, moviepy_resize.
  by rewrite (Hscene path eq_refl), Hresize.
Qed.

Lemma pipeline_scene_image (img : string) :
  scene_image {[ "image" := PyStr img; "duration" := PyNum 5 ]} = Some img.
Proof. unfold scene_image. by rewrite lookup_insert_eq. Qed.

(** What a run that returns has gone through. *)
Lemma create_manga_recap_video_inv (pdf_path temp_dir title : string) (fs : Fs)
    (video : Video) :
  create_manga_recap_video decode load find_contours ocr tts resize
    pdf_path temp_dir title fs = Some video ->
  exists (fs' : Fs) (images : list string) (pages : list (list Panel)) (a : Q),
    extract_pages_from_pdf pdf_path (path_join temp_dir "pages") default_dpi fs
    = Some (fs', images)
    /\ analysed_pages decode find_contours fs' images = Some pages
    /\ tts (pipeline_script ocr pages) = Some a
    /\ @create_manga_recap (file_lib load resize fs') default_generator
         (pipeline_scenes images) (Some a) title = Some video.
Proof.
  unfold create_manga_recap_video. intros Hv.
  destruct (extract_pages_from_pdf _ _ _ _) as [[fs' images] |]; [| done].
  cbn in Hv.
  destruct (analysed_pages _ _ _ _) as [pages |] eqn:Hpages; [| done].
  cbn in Hv.
  destruct (tts _) as [a |] eqn:Etts; [| done]. cbn in Hv.
  by exists fs', images, pages, a.
Qed.


Lemma extract_loop_ext (doc1 doc2 : Document Pixmap) (output_dir : string)
    (dpi : Z) (st : Fs * list string) (l : list nat) :
  get_pixmap doc1 = get_pixmap doc2 ->
  extract_loop doc1 output_dir dpi st l = extract_loop doc2 output_dir dpi st l.
Proof.
  intros Heq. revert st. induction l as [| k l IH]; intros st; [done |].
  cbn [extract_loop].
  assert (extract_step doc1 output_dir dpi st k
          = extract_step doc2 output_dir dpi st k) as ->.
  { unfold extract_step. by rewrite Heq. }
  destruct (extract_step doc2 output_dir dpi st k) as [st' |]; [apply IH | done].
Qed.

(** The extraction of the first 20 pages alone goes the way that the
    extraction of the whole document went for them, and the files of these
    pages are the same after either. *)
Lemma extract_pages_first (pdf_path short_path output_dir : string) (dpi : Z)
    (fs fs' : Fs) (images : list string) :
  keeps_other_pages ->
  (forall fs0 : Fs,
     fitz_open short_path fs0 = first_pages 20 <$> fitz_open pdf_path fs0) ->
  extract_pages_from_pdf pdf_path output_dir dpi fs = Some (fs', images) ->
  exists fs20 : Fs,
    extract_pages_from_pdf short_path output_dir dpi fs
    = Some (fs20, take 20 images)
    /\ Forall (fun path => read_file path fs' = read_file path fs20)
         (take 20 images).
Proof.
  intros Hkeeps Hshort Hrun.
  apply extract_pages_inv in Hrun as (fs0 & doc & Hmk & Hopen & Hloop).
  set (n := page_count doc) in *.
  assert (exists m : nat, m = Nat.min 20 n) as [m Hm] by eauto.
  assert (seq 0 n = seq 0 m ++ seq m (n - m)) as Hsplit.
  { replace n with (m + (n - m))%nat at 1 by lia. apply seq_app. }
  rewrite Hsplit, extract_loop_app in Hloop.
  destruct (extract_loop doc output_dir dpi (fs0, []) (seq 0 m))
    as [[fs20 images20] |] eqn:Hfirst; [| done].
  cbn [mbind option_bind] in Hloop. exists fs20.
  pose proof (extract_loop_inv _ _ _ _ _ _ _ _ Hfirst) as [Himages20 _].
  pose proof (extract_loop_inv _ _ _ _ _ _ _ _ Hloop) as [Himages _].
  cbn [app] in Himages20. subst images20.
  assert (take 20 images = page_path output_dir <$> seq 0 m) as Htake.
  { rewrite Himages, <- fmap_app, <- Hsplit, Hm. apply take_page_paths. }
  rewrite Htake. split.
  - unfold extract_pages_from_pdf. rewrite Hmk. cbn [mbind option_bind].
    rewrite Hshort, Hopen. cbn [fmap option_fmap option_map mbind option_bind].
    cbn [first_pages page_count]. fold n. rewrite <- Hm.
    by rewrite (extract_loop_ext (first_pages 20 doc) doc).
  - apply Forall_fmap, Forall_forall. intros j Hj. cbn.
    apply (extract_loop_keeps _ _ _ _ _ _ _ _ j Hkeeps Hloop).
    rewrite elem_of_seq in Hj |- *. lia.
Qed.

(** X6: pages after the twentieth change nothing in the video: when the
    run on a document returns a video, the run on the first 20 pages of
    the document returns the same video. *)
Theorem create_manga_recap_video_first_20 (pdf_path short_path : string)
    (temp_dir title : string) (fs : Fs) (video : Video) :
  keeps_other_pages ->
  (forall fs0 : Fs,
     fitz_open short_path fs0 = first_pages 20 <$> fitz_open pdf_path fs0) ->
  create_manga_recap_video decode load find_contours ocr tts resize
    pdf_path temp_dir title fs = Some video ->
  create_manga_recap_video decode load find_contours ocr tts resize
    short_path temp_dir title fs = Some video.
Proof.
  intros Hkeeps Hshort Hv.
  apply create_manga_recap_video_inv in Hv
    as (fs' & images & pages & a & Hrun & Hpages & Htts & Hv).
  destruct (extract_pages_first _ _ _ _ _ _ _ Hkeeps Hshort Hrun)
    as (fs20 & Hrun20 & Hfiles).
  unfold create_manga_recap_video. rewrite Hrun20. cbn.
  assert (analysed_pages decode find_contours fs20 (take 20 images) = Some pages)
    as ->.
  { rewrite <- Hpages. unfold analysed_pages. rewrite take_take, Nat.min_id.
    rewrite <- (list_fmap_id (take 20 images)) at 1.
    rewrite <- (list_fmap_id (take 20 images)) at 2.
    rewrite (mapM_fmap_ext _ (detect_panels_at decode find_contours fs') id);
      [by rewrite list_fmap_id |].
    eapply Forall_impl; [exact Hfiles |]. intros path Hpath. cbn.
    unfold detect_panels_at. by rewrite Hpath. }
  cbn. rewrite Htts. cbn. rewrite <- Hv.
  assert (pipeline_scenes (take 20 images) = pipeline_scenes images) as ->.
  { unfold pipeline_scenes. by rewrite take_take, Nat.min_id. }
  unfold create_manga_recap, concatenated.
  rewrite (scene_clips_ext (file_lib load resize fs20) (file_lib load resize fs'));
    [done | done |].
  unfold pipeline_scenes. apply Forall_fmap.
  eapply Forall_impl; [exact Hfiles |]. intros img Himg path. cbn.
  rewrite pipeline_scene_image. intros [= <-]. by rewrite Himg.
Qed.

(** X25: the pages are all rendered and saved before the first 20 are
    picked, so a page that does not render makes the run fail, also when
    it is a page after the twentieth, which no later step would have
    looked at. *)
Theorem create_manga_recap_video_page_fails (pdf_path temp_dir title : string)
    (fs fs0 : Fs) (doc : Document Pixmap) (i : nat) :
  makedirs (path_join temp_dir "pages") fs = Some fs0 ->
  fitz_open pdf_path fs0 = Some doc ->
  (i < page_count doc)%nat ->
  get_pixmap doc i (inject_Z default_dpi / 72) = None ->
  create_manga_recap_video decode load find_contours ocr tts resize
    pdf_path temp_dir title fs = None.
Proof.
  intros Hmk Hopen Hi Hnone. unfold create_manga_recap_video.
  by rewrite (extract_pages_page_fails _ _ _ _ _ _ _ Hmk Hopen Hi Hnone).
Qed.

End PipelineFacts.

(** ** The page component *)

Section HomeFacts.
Import Home.

Lemma run_snoc (events : list Event) (e : Event) :
  run (events ++ [e]) = step (run events) e.
Proof. unfold run. by rewrite foldl_app. Qed.

(** X22: whatever is dropped, clicked or copied, and in whatever order, the
    file shown as uploaded is a PDF, and it is the first file of some
    drop. *)
Theorem uploaded_file_is_pdf (events : list Event) (file : File) :
  uploadedFile (run events) = Some file ->
  type file = "application/pdf"
  /\ exists rest, Drop (file :: rest) ∈ events.
Proof.
  induction events as [| e events IH] using rev_ind; [done |].
  rewrite run_snoc. intros Hup.
  assert (type file = "application/pdf"
          /\ (exists rest, Drop (file :: rest) ∈ events)
          \/ exists rest, e = Drop (file :: rest)
                          /\ type file = "application/pdf") as Hcase.
  { destruct e as [files | tab | section | code id |]; simpl in Hup.
    - unfold onDrop in Hup. destruct files as [| f rest]; [left; by apply IH |].
      destruct (String.eqb_spec (type f) "application/pdf") as [Hpdf | _].
      + simpl in Hup. injection Hup as ->. right. eauto.
      + left. by apply IH.
    - left. by apply IH.
    - left. by apply IH.
    - left. by apply IH.
    - unfold timeout in Hup. destruct (timers (run events)); left; by apply IH. }
  destruct Hcase as [[Hpdf [rest Hin]] | [rest [-> Hpdf]]].
  - split; [done |]. exists rest. apply elem_of_app. by left.
  - split; [done |]. exists rest. apply elem_of_app. right. by apply list_elem_of_singleton.
Qed.

Lemma last_snoc_omap {A B : Type} (f : A -> option B) (l : list A) (a : A) :
  last (omap f (l ++ [a]))
  = match f a with Some b => Some b | None => last (omap f l) end.
Proof.
  rewrite omap_app. simpl. destruct (f a) as [b |].
  - by rewrite last_snoc.
  - by rewrite app_nil_r.
Qed.

(** X23: the section shown expanded is always the last one that was toggled
    (or the initial one, as long as none was): a toggle closes every other
    section. *)
Theorem expanded_section_is_last_toggled (events : list Event) (section : string) :
  expandedSection (run events) = Some section ->
  last_toggled events = Some section
  \/ (last_toggled events = None /\ section = "architecture").
Proof.
  revert section. induction events as [| e events IH] using rev_ind;
    intros section.
  { intros [= <-]. by right. }
  rewrite run_snoc. unfold last_toggled in *. rewrite last_snoc_omap.
  destruct e as [files | tab | s | code id |]; simpl.
  - unfold onDrop. destruct files as [| f rest]; [apply IH |].
    destruct (String.eqb _ _); apply IH.
  - apply IH.
  - destruct (decide (expandedSection (run events) = Some s)); [done |].
    intros [= <-]. by left.
  - apply IH.
  - unfold timeout. destruct (timers (run events)); apply IH.
Qed.

(** X24: the "Copied!" mark is never on another snippet than the last one
    copied. *)
Theorem copied_mark_is_last_copied (events : list Event) (id : string) :
  copiedCode (run events) = Some id -> last_copied events = Some id.
Proof.
  revert id. induction events as [| e events IH] using rev_ind; [done |].
  intros id. rewrite run_snoc. unfold last_copied in *. rewrite last_snoc_omap.
  destruct e as [files | tab | s | code id' |]; simpl.
  - unfold onDrop. destruct files as [| f rest]; [apply IH |].
    destruct (String.eqb _ _); apply IH.
  - apply IH.
  - apply IH.
  - by intros [= <-].
  - unfold timeout. destruct (timers (run events)); [apply IH | done].
Qed.

(** No event starts the processing: the five steps shown under an
    uploaded file are pending at all times. *)
Lemma processing_never_starts (events : list Event) :
  status <$> processingSteps (run events) = replicate 5 pending.
Proof.
  induction events as [| e events IH] using rev_ind; [done |].
  rewrite run_snoc.
  destruct e as [files | tab | s | code id' |]; simpl; try done.
  - unfold onDrop. destruct files as [| f rest]; [done |].
    by destruct (String.eqb _ _).
  - unfold timeout. by destruct (timers (run events)).
Qed.

End HomeFacts.

(** ** The results at sample inputs *)

Section Witnesses.
Import PdfExtractor PanelDetector Narrator VideoGenerator Pipeline.

Lemma raster_rectangular (w h : Z) (ink : Z -> Z -> bool) :
  0 <= w -> 0 <= h -> rectangular h w (Samples.raster w h ink).
Proof.
  intros Hw Hh. unfold rectangular, Samples.raster. split.
  - rewrite length_fmap, length_seqZ. lia.
  - apply Forall_fmap, Forall_forall. intros y _. simpl.
    rewrite length_fmap, length_seqZ. lia.
Qed.

Lemma window_at_start_default :
  Renderer.window (1920, 1080) (Samples.default_closure "right") 1296 2304
    PyFloat.zero = Some (0, 108, 1920, 1080)
  /\ Renderer.zoom_at (Samples.default_closure "right") PyFloat.zero
     = Some PyFloat.one
  /\ Renderer.crop_side 1080 PyFloat.one = Some 1080
  /\ Renderer.crop_side 1920 PyFloat.one = Some 1920
  /\ 108 = (1296 - 1080) / 2
  /\ (Renderer.pan_direction (Samples.default_closure "right") = "right" -> 0 = 0).
Proof.
  split; [vm_compute; reflexivity |].
  apply (window_at_start (1920, 1080) (Samples.default_closure "right") 1296 2304
           0 108 1920 1080).
  vm_compute. reflexivity.
Defined.

Lemma detect_panels_positive_size_nested :
  Forall (fun p => 1 <= width p /\ 1 <= height p)
    (detect_panels Samples.nested_page [Samples.l_shape; Samples.square]
       default_min_area).
Proof.
  apply (detect_panels_positive_size Samples.nested_page
           [Samples.l_shape; Samples.square] default_min_area).
  reflexivity.
Defined.

Lemma nested_contours_on_page :
  Forall (on_page 320 320) [Samples.l_shape; Samples.square].
Proof. repeat constructor; simpl; lia. Qed.

Lemma detect_panels_image_nested :
  Forall (fun p =>
            0 <= x p /\ 0 <= y p
            /\ x p + width p <= 320 /\ y p + height p <= 320
            /\ rectangular (height p) (width p) (image p)
            /\ (forall i j : Z, 0 <= i < height p -> 0 <= j < width p ->
                  pixel (image p) i j
                  = pixel Samples.nested_page (y p + i) (x p + j)))
    (detect_panels Samples.nested_page [Samples.l_shape; Samples.square]
       default_min_area).
Proof.
  apply (detect_panels_image Samples.nested_page 320 320
           [Samples.l_shape; Samples.square] default_min_area).
  - by apply raster_rectangular.
  - reflexivity.
  - exact nested_contours_on_page.
Defined.

Lemma detect_panels_order_two_marks :
  exists p q : Panel,
    detect_panels MoreSamples.two_marks_page
      [MoreSamples.left_mark; MoreSamples.right_mark] 10 !! 0%nat = Some p
    /\ detect_panels MoreSamples.two_marks_page
         [MoreSamples.left_mark; MoreSamples.right_mark] 10 !! 1%nat = Some q
    /\ bbox p = (20, 4, 6, 6) /\ bbox q = (2, 2, 6, 6)
    /\ band p <= band q /\ (band p = band q -> x p >= x q).
Proof.
  eexists _, _. split; [vm_compute; reflexivity |].
  split; [vm_compute; reflexivity |].
  split; [reflexivity |]. split; [reflexivity |].
  apply (detect_panels_order_all_pairs MoreSamples.two_marks_page
           [MoreSamples.left_mark; MoreSamples.right_mark] 10 0 1);
    [lia | vm_compute; reflexivity | vm_compute; reflexivity].
Defined.

Lemma create_manga_recap_timeline_two_scenes :
  exists video : Video,
    @create_manga_recap Samples.toy_lib Samples.thumbnailer Samples.two_scenes
      (Some 40%Q) "Recap" = Some video
    /\ (start <$> clips video) = [0%Q; 3%Q; 17%Q]
    /\ (forall (i : nat) (c c' : Clip),
          clips video !! i = Some c -> clips video !! S i = Some c' ->
          start c' = (start c + clip_duration c)%Q)
    /\ (forall c, last (clips video) = Some c ->
          (start c + clip_duration c <= video_duration video)%Q).
Proof.
  eexists. split; [vm_compute; reflexivity |].
  split; [vm_compute; reflexivity |].
  apply (@create_manga_recap_timeline Samples.toy_lib Samples.thumbnailer
           Samples.two_scenes (Some 40%Q) "Recap").
  vm_compute. reflexivity.
Defined.

Lemma create_manga_recap_duration_two_scenes :
  exists video : Video,
    @create_manga_recap Samples.toy_lib Samples.thumbnailer Samples.two_scenes
      (Some 40%Q) "Recap" = Some video
    /\ exists ds : list Q,
         scene_durations Samples.two_scenes = Some ds
         /\ length (clips video) = 3%nat
         /\ audio video = Some 40%Q
         /\ ((40 <= 3 + total ds)%Q -> (video_duration video == 3 + total ds)%Q)
            /\ ((3 + total ds < 40)%Q -> (video_duration video == 40)%Q).
Proof.
  eexists. split; [vm_compute; reflexivity |].
  apply (@create_manga_recap_duration Samples.toy_lib Samples.thumbnailer
           Samples.two_scenes (Some 40%Q) "Recap").
  vm_compute. reflexivity.
Defined.

Lemma create_manga_recap_missing_image_second :
  Exists (fun scene => scene !! "image" = None) MoreSamples.scenes_missing_image
  /\ @create_manga_recap Samples.toy_lib Samples.thumbnailer
       MoreSamples.scenes_missing_image None "Recap" = None.
Proof.
  assert (Exists (fun scene : gmap string PyVal => scene !! "image" = None)
            MoreSamples.scenes_missing_image) as Hex.
  { apply Exists_cons_tl, Exists_cons_hd. reflexivity. }
  split; [exact Hex |].
  exact (@create_manga_recap_missing_image Samples.toy_lib Samples.thumbnailer
           MoreSamples.scenes_missing_image None "Recap" Hex).
Defined.

Lemma map_disk_reads_back {Pixmap : Type}
    (shelf : string -> option (Document Pixmap)) :
  @reads_back _ _ (MoreSamples.map_disk shelf).
Proof. intros pix path fs fs' [= <-]. cbn. apply lookup_insert_eq. Qed.

Lemma map_disk_keeps_other_pages {Pixmap : Type}
    (shelf : string -> option (Document Pixmap)) :
  @keeps_other_pages _ _ (MoreSamples.map_disk shelf).
Proof.
  intros output_dir i j pix fs fs' Hne [= <-]. cbn. by rewrite lookup_insert_ne.
Qed.

Lemma is_Some_computed {A : Type} (o : option A) :
  match o with Some _ => true | None => false end = true -> is_Some o.
Proof. destruct o; [by eexists | discriminate]. Qed.

(** A document of three pages whose pixmaps are the page numbers, and a
    disk that already holds a file with the name of the second page. *)
Lemma extract_pages_paths_three_pages :
  snd <$> MoreSamples.extracted_numbers
  = Some ["out/page_0000.png"; "out/page_0001.png"; "out/page_0002.png"]
  /\ exists (fs' : gmap string nat) (paths : list string),
       MoreSamples.extracted_numbers = Some (fs', paths)
       /\ exists (fs0 : gmap string nat) (doc : Document nat),
            @makedirs _ _ MoreSamples.number_disk "out" MoreSamples.stale_file
            = Some fs0
            /\ @fitz_open _ _ MoreSamples.number_disk "book.pdf" fs0 = Some doc
            /\ length paths = page_count doc
            /\ NoDup paths
            /\ (forall i : nat, (i < page_count doc)%nat ->
                  paths !! i = Some (page_path "out" i)).
Proof.
  split; [vm_compute; reflexivity |].
  destruct (is_Some_computed MoreSamples.extracted_numbers)
    as [[fs' paths] Hrun]; [vm_compute; reflexivity |].
  exists fs', paths. split; [exact Hrun |].
  apply (@extract_pages_paths _ _ MoreSamples.number_disk
           "book.pdf" "out" 150 MoreSamples.stale_file fs' paths).
  exact Hrun.
Defined.

Lemma extract_pages_files_three_pages :
  MoreSamples.stale_file !! "out/page_0001.png" = Some 7%nat
  /\ MoreSamples.numbers_read_back = Some [Some 0; Some 1; Some 2]%nat
  /\ exists (fs' : gmap string nat) (paths : list string),
       MoreSamples.extracted_numbers = Some (fs', paths)
       /\ exists (fs0 : gmap string nat) (doc : Document nat),
            @makedirs _ _ MoreSamples.number_disk "out" MoreSamples.stale_file
            = Some fs0
            /\ @fitz_open _ _ MoreSamples.number_disk "book.pdf" fs0 = Some doc
            /\ (forall i : nat, (i < page_count doc)%nat ->
                  exists pix : nat,
                    get_pixmap doc i (inject_Z 150 / 72)%Q = Some pix
                    /\ @read_file _ _ MoreSamples.number_disk (page_path "out" i) fs'
                       = Some pix).
Proof.
  split; [vm_compute; reflexivity |]. split; [vm_compute; reflexivity |].
  destruct (is_Some_computed MoreSamples.extracted_numbers)
    as [[fs' paths] Hrun]; [vm_compute; reflexivity |].
  exists fs', paths. split; [exact Hrun |].
  apply (@extract_pages_files _ _ MoreSamples.number_disk
           "book.pdf" "out" 150 MoreSamples.stale_file fs' paths);
    [apply map_disk_reads_back | apply map_disk_keeps_other_pages | exact Hrun].
Defined.



(** The sample book of 22 pages and its first 20 pages: the same video, of
    21 clips and 195 seconds. *)
Lemma create_manga_recap_video_22_pages :
  (fun video => (length (clips video), video_duration video))
  <$> MoreSamples.run "book22.pdf" = Some (21%nat, 195%Q)
  /\ MoreSamples.run "book20.pdf" = MoreSamples.run "book22.pdf".
Proof.
  split; [vm_compute; reflexivity |].
  destruct (is_Some_computed (MoreSamples.run "book22.pdf")) as [video Hrun];
    [vm_compute; reflexivity |].
  rewrite Hrun.
  apply (@create_manga_recap_video_first_20 _ _
           MoreSamples.disk
           MoreSamples.as_saved MoreSamples.as_saved MoreSamples.strip_contours
           MoreSamples.one_word MoreSamples.second_per_character
           MoreSamples.same_size "book22.pdf" "book20.pdf" "/tmp/recap" "Recap"
           ∅ video);
    [apply map_disk_keeps_other_pages | reflexivity | exact Hrun].
Defined.

(** The sample book of 22 pages whose last page does not render: no video,
    although the video of its first 20 pages, which are those of the
    sample book, can be made. *)
Lemma create_manga_recap_video_torn_page :
  is_Some (MoreSamples.run "book20.pdf")
  /\ (forall (i : nat) (zoom : Q), (i < 20)%nat ->
        get_pixmap (MoreSamples.torn_book 22 21) i zoom
        = get_pixmap (MoreSamples.book 20) i zoom)
  /\ MoreSamples.run "torn22.pdf" = None.
Proof.
  split; [apply is_Some_computed; vm_compute; reflexivity |].
  split.
  { intros i zoom Hi. cbn. by destruct (Nat.eqb_spec i 21); [lia |]. }
  apply (@create_manga_recap_video_page_fails _ _ MoreSamples.disk
           MoreSamples.as_saved MoreSamples.as_saved MoreSamples.strip_contours
           MoreSamples.one_word MoreSamples.second_per_character
           MoreSamples.same_size "torn22.pdf" "/tmp/recap" "Recap" ∅ ∅
           (MoreSamples.torn_book 22 21) 21);
    [reflexivity | reflexivity | cbn; lia | reflexivity].
Defined.

(** Two marks in one band, detected left to right: the arrangement with
    the right mark first is the one returned. *)
Lemma detect_panels_unique_two_marks :
  [panel_of MoreSamples.two_marks_page MoreSamples.right_mark;
   panel_of MoreSamples.two_marks_page MoreSamples.left_mark]
  = detect_panels MoreSamples.two_marks_page
      [MoreSamples.left_mark; MoreSamples.right_mark] 10.
Proof.
  apply (detect_panels_unique MoreSamples.two_marks_page
           [MoreSamples.left_mark; MoreSamples.right_mark] 10).
  - constructor; [repeat constructor |]. constructor.
    right. split; [reflexivity | vm_compute; discriminate].
  - intros b x0.
    change (detected MoreSamples.two_marks_page
              [MoreSamples.left_mark; MoreSamples.right_mark] 10)
      with [panel_of MoreSamples.two_marks_page MoreSamples.left_mark;
            panel_of MoreSamples.two_marks_page MoreSamples.right_mark].
    assert (x (panel_of MoreSamples.two_marks_page MoreSamples.left_mark) = 2)
      as Hl by reflexivity.
    assert (x (panel_of MoreSamples.two_marks_page MoreSamples.right_mark) = 20)
      as Hr by reflexivity.
    rewrite !filter_cons, !filter_nil.
    repeat case_decide; try done; lia.
Defined.

Lemma uploaded_file_is_pdf_after_two_drops :
  Home.type (Home.mkFile "chapter.pdf" "application/pdf" 1024) = "application/pdf"
  /\ exists rest,
       Home.Drop (Home.mkFile "chapter.pdf" "application/pdf" 1024 :: rest)
       ∈ [Home.Drop [Home.mkFile "chapter.pdf" "application/pdf" 1024];
          Home.Drop [Home.mkFile "cover.png" "image/png" 2048]].
Proof.
  apply (uploaded_file_is_pdf
           [Home.Drop [Home.mkFile "chapter.pdf" "application/pdf" 1024];
            Home.Drop [Home.mkFile "cover.png" "image/png" 2048]]).
  reflexivity.
Defined.

Lemma expanded_section_after_toggles :
  Home.last_toggled [Home.ToggleSection "api"; Home.ToggleSection "tools"]
  = Some "tools"
  \/ (Home.last_toggled [Home.ToggleSection "api"; Home.ToggleSection "tools"]
      = None /\ "tools" = "architecture").
Proof.
  apply (expanded_section_is_last_toggled
           [Home.ToggleSection "api"; Home.ToggleSection "tools"] "tools").
  reflexivity.
Defined.

Lemma copied_mark_after_two_copies :
  Home.last_copied [Home.CopyToClipboard "import fitz" "pdf";
                    Home.CopyToClipboard "import cv2" "panel"] = Some "panel".
Proof.
  apply (copied_mark_is_last_copied
           [Home.CopyToClipboard "import fitz" "pdf";
            Home.CopyToClipboard "import cv2" "panel"] "panel").
  reflexivity.
Defined.

End Witnesses.
